(** * Arbitrage detection over bookmaker odds: a model of [main.py]

    The development embeds the two classes that carry the algorithmic
    content of the program, [Match] (construction of a snapshot from a
    decoded payload and selection of the best price per outcome) and
    [ArbitrageCalculator] (the probability-sum test, the stake split and
    the guaranteed profit), and proves the properties the specification
    states about them.

    Payload.  An event payload is a dictionary; its values are strings or
    the array of bookmaker quotes, and every bookmaker quote has the
    documented shape (a title and a list of markets, each a list of priced
    outcomes).  Missing top-level keys are modelled, ill-shaped quotes are
    not.

    Numbers.  A JSON number decodes to a Python [int] or [float].  The
    selector only compares prices: there a number is modelled by the
    rational it denotes (no infinity, no NaN), and equality of numbers is
    [Qeq], as Python's [==] identifies 2 and 2.0.

    The evaluator is given twice.  [ArbitrageCalculator] computes
    [evaluate] in the exact arithmetic of [Q], without the rounding error
    of binary floating point; division keeps Python's one failure, a zero
    divisor raises [ZeroDivisionError].  It carries the algebraic
    properties of the stake split.  [FloatCalculator] follows the same
    source lines in the arithmetic the interpreter uses, IEEE 754 binary64
    with Python's [int]s beside it, and carries the properties that depend
    on rounding: the arbitrage test at its boundary, the choice of the
    least return, and the exceptions [evaluate] raises. *)

From Stdlib Require Import List String ZArith QArith Qround Qabs Bool Lia Lqa.
From Stdlib Require Import SpecFloat.
Import ListNotations.
Local Open Scope string_scope.
Local Open Scope list_scope.
Local Open Scope Q_scope.

(** ** Exceptions and results *)

Inductive exception : Type :=
| KeyError (key : string)
| TypeError
| ValueError
| ZeroDivisionError
| OverflowError.

Inductive result (A : Type) : Type :=
| Return (a : A)
| Raise (e : exception).

Arguments Return {A} a.
Arguments Raise {A} e.

Definition bind {A B : Type} (m : result A) (k : A -> result B) : result B :=
  match m with
  | Return a => k a
  | Raise e => Raise e
  end.

Notation "x <- m ;; k" := (bind m (fun x => k))
  (at level 61, m at next level, right associativity).
Notation "' p <- m ;; k" := (bind m (fun x => match x with p => k end))
  (at level 61, p pattern, m at next level, right associativity).

(** A list comprehension whose element expression may raise: elements are
    evaluated left to right and the first exception ends the comprehension. *)
Fixpoint comprehension {A B : Type} (f : A -> result B) (l : list A) : result (list B) :=
  match l with
  | [] => Return []
  | a :: l' =>
      b <- f a ;;
      bs <- comprehension f l' ;;
      Return (b :: bs)
  end.

(** ** Python dictionaries with string keys

    A [dict] keeps its keys in insertion order; assigning to a key that is
    present replaces the value and leaves the key where it is. *)

Section Dict.
Variable V : Type.

Definition dict : Type := list (string * V).

Fixpoint dict_get (d : dict) (k : string) : option V :=
  match d with
  | [] => None
  | (k', v) :: d' => if String.eqb k' k then Some v else dict_get d' k
  end.

Fixpoint dict_set (d : dict) (k : string) (v : V) : dict :=
  match d with
  | [] => [(k, v)]
  | (k', v') :: d' =>
      if String.eqb k' k then (k, v) :: d' else (k', v') :: dict_set d' k v
  end.

Definition keys (d : dict) : list string := map fst d.
Definition values (d : dict) : list V := map snd d.

(** [d[k]]: a missing key raises [KeyError]. *)
Definition getitem (d : dict) (k : string) : result V :=
  match dict_get d k with
  | Some v => Return v
  | None => Raise (KeyError k)
  end.
End Dict.

Arguments dict_get {V} d k.
Arguments dict_set {V} d k v.
Arguments keys {V} d.
Arguments values {V} d.
Arguments getitem {V} d k.

(** ** The decoded payload *)

Record Outcome : Type := { name : string; price : Q }.

Record Market : Type := { outcomes : list Outcome }.

Record Bookmaker : Type := { title : string; markets : list Market }.

(** The values of an event payload of the documented shape: a string, or
    the array of bookmaker quotes. *)
Inductive value : Type :=
| Text (s : string)
| Quotes (bs : list Bookmaker).

Definition payload : Type := dict value.

(** The best-odds mapping: outcome name to (price, bookmaker name). *)
Definition BestOdds : Type := dict (Q * string).

(** Python's [a > b] on numbers. *)
Definition Qgt_bool (a b : Q) : bool := negb (Qle_bool a b).

(** Python's [a < b] on numbers. *)
Definition Qlt_bool (a b : Q) : bool := negb (Qle_bool b a).

Module Match.

Record t : Type := {
  home_team : value;
  away_team : value;
  commence_time : value;
  bookmakers : value
}.

Definition __init__ (match_data : payload) : result t :=
  home <- getitem match_data "home_team" ;;
  away <- getitem match_data "away_team" ;;
  time <- getitem match_data "commence_time" ;;
  books <- getitem match_data "bookmakers" ;;
  Return {| home_team := home; away_team := away;
            commence_time := time; bookmakers := books |}.

(** The body of the inner loop: one outcome of a bookmaker's first market. *)
Definition visit_outcome (bookmaker_name : string) (best_odds : BestOdds)
    (outcome : Outcome) : BestOdds :=
  match dict_get best_odds (name outcome) with
  | None => dict_set best_odds (name outcome) (price outcome, bookmaker_name)
  | Some best =>
      if Qgt_bool (price outcome) (fst best)
      then dict_set best_odds (name outcome) (price outcome, bookmaker_name)
      else best_odds
  end.

(** The body of the outer loop: [bookmaker["markets"][0]] raises
    [IndexError] on an empty list, which the loop catches to move on. *)
Definition visit_bookmaker (best_odds : BestOdds) (bookmaker : Bookmaker) : BestOdds :=
  match markets bookmaker with
  | [] => best_odds
  | market :: _ =>
      fold_left (visit_outcome (title bookmaker)) (outcomes market) best_odds
  end.

(** Iterating a string yields its characters, and subscripting a
    character with ["title"] raises [TypeError]; the empty string yields
    nothing. *)
Definition get_best_odds (self : t) : result BestOdds :=
  match bookmakers self with
  | Quotes bs => Return (fold_left visit_bookmaker bs [])
  | Text EmptyString => Return []
  | Text (String _ _) => Raise TypeError
  end.

End Match.

(** ** Numeric built-ins *)

(** [x / y] *)
Definition truediv (x y : Q) : result Q :=
  if Qeq_bool y 0 then Raise ZeroDivisionError else Return (x / y).

(** [sum(l)]: starts from 0 and adds from the left. *)
Definition py_sum (l : list Q) : Q := fold_left Qplus l 0.

(** [min(l)]: the first smallest element; an empty argument raises. *)
Definition py_min (l : list Q) : result Q :=
  match l with
  | [] => Raise ValueError
  | x :: l' => Return (fold_left (fun m y => if Qlt_bool y m then y else m) l' x)
  end.

(** Rounding to the nearest integer, a tie going to the even neighbour. *)
Definition round_half_even (y : Q) : Z :=
  let f := Qfloor y in
  match Qcompare (y - inject_Z f) (1 # 2) with
  | Lt => f
  | Gt => (f + 1)%Z
  | Eq => if Z.even f then f else (f + 1)%Z
  end.

(** [round(x, ndigits)] for [ndigits >= 0]. *)
Definition py_round (x : Q) (ndigits : nat) : Q :=
  let scale := inject_Z (10 ^ Z.of_nat ndigits)%Z in
  inject_Z (round_half_even (x * scale)) / scale.

Module ArbitrageCalculator.

Record t : Type := { total_stake : Q }.

(** [total_stake] defaults to 100.0. *)
Definition __init__ (total_stake : option Q) : t :=
  {| total_stake := match total_stake with Some s => s | None => 100 end |}.

Record Opportunity : Type := {
  outcome : string;
  stake : Q;
  price : Q;
  bookmaker : string
}.

Record Result : Type := {
  total_prob : Q;
  is_arbitrage : bool;
  opportunities : list Opportunity;
  guaranteed_profit : Q
}.

(** The unrounded stakes, [strokes] in the source. *)
Definition strokes (self : t) (total_prob : Q) (best_odds : BestOdds) : result (list Q) :=
  comprehension
    (fun '(price, _) =>
       p <- truediv 1 price ;;
       share <- truediv p total_prob ;;
       Return (share * total_stake self))
    (values best_odds).

Definition evaluate (self : t) (best_odds : BestOdds) : result (option Result) :=
  match best_odds with
  | [] => Return None
  | _ :: _ =>
      probabilities <-
        comprehension (fun '(price, _) => truediv 1 price) (values best_odds) ;;
      let total := py_sum probabilities in
      let res :=
        {| total_prob := py_round total 4;
           is_arbitrage := Qlt_bool total 1;
           opportunities := [];
           guaranteed_profit := 0 |} in
      if is_arbitrage res then
        stakes <- strokes self total best_odds ;;
        let bets :=
          map (fun '(outcome_name, stake, (price, bookmaker)) =>
                 {| outcome := outcome_name;
                    stake := py_round stake 2;
                    price := price;
                    bookmaker := bookmaker |})
              (combine (combine (keys best_odds) stakes) (values best_odds)) in
        min_return <-
          py_min (map (fun '(stake, (price, _)) => stake * price)
                      (combine stakes (values best_odds))) ;;
        Return (Some {| total_prob := total_prob res;
                        is_arbitrage := is_arbitrage res;
                        opportunities := bets;
                        guaranteed_profit :=
                          py_round (min_return - total_stake self) 2 |})
      else Return (Some res)
  end.

End ArbitrageCalculator.

(** ** Vocabulary of the specification *)

(** The quotes a bookmaker contributes: the outcomes of its first market,
    each paired with the bookmaker's title; none when it has no market. *)
Definition first_market_quotes (b : Bookmaker) : list (string * Outcome) :=
  match markets b with
  | [] => []
  | market :: _ => map (pair (title b)) (outcomes market)
  end.

(** The quotes of a snapshot, in the order the selector meets them. *)
Definition quotes (bs : list Bookmaker) : list (string * Outcome) :=
  flat_map first_market_quotes bs.

(** Bookmaker [bk] quotes the outcome [o] in its first market. *)
Definition offers (bk : Bookmaker) (o : Outcome) : Prop :=
  match markets bk with
  | [] => False
  | market :: _ => In o (outcomes market)
  end.

(** The quote is for outcome [n]. *)
Definition quote_for (n : string) (q : string * Outcome) : Prop :=
  name (snd q) = n.

(** The quote is for outcome [n] at a price equal to [p]. *)
Definition quotes_at (n : string) (p : Q) (q : string * Outcome) : bool :=
  String.eqb (name (snd q)) n && Qeq_bool (price (snd q)) p.

(** The implied probability of a decimal price. *)
Definition implied_probability (p : Q) : Q := 1 / p.

(** The aggregate implied probability of a best-odds mapping. *)
Definition implied_sum (best_odds : BestOdds) : Q :=
  py_sum (map (fun v => implied_probability (fst v)) (values best_odds)).

(** The fields a payload must carry. *)
Definition required_fields : list string :=
  ["home_team"; "away_team"; "commence_time"; "bookmakers"].

(** [selected qs n p b]: among the quotes [qs], one by bookmaker [b] for
    outcome [n] at price [p] has only strictly lower quotes for [n] before
    it and no higher quote for [n] after it. *)
Definition selected (qs : list (string * Outcome)) (n : string) (p : Q) (b : string) : Prop :=
  exists pre o post,
    qs = pre ++ (b, o) :: post /\ name o = n /\ price o = p /\
    (forall q, In q pre -> quote_for n q -> price (snd q) < p) /\
    (forall q, In q post -> quote_for n q -> price (snd q) <= p).

(** The loop invariant of [get_best_odds]: after the quotes [qs], every
    recorded outcome holds its selected quote and every other outcome has
    not been quoted. *)
Definition best_of (qs : list (string * Outcome)) (d : BestOdds) : Prop :=
  forall n,
    match dict_get d n with
    | Some (p, b) => selected qs n p b
    | None => forall q, In q qs -> ~ quote_for n q
    end.

(** One step of the selector on a quote. *)
Definition visit_quote (d : BestOdds) (q : string * Outcome) : BestOdds :=
  Match.visit_outcome (fst q) d (snd q).

(** The stake the specification allots to each outcome: its share of the
    aggregate implied probability, times the total stake. *)
Definition proportional_stakes (self : ArbitrageCalculator.t) (best_odds : BestOdds) : list Q :=
  map (fun v => implied_probability (fst v) / implied_sum best_odds
                * ArbitrageCalculator.total_stake self)
      (values best_odds).

(** The return of each outcome under the stakes [stakes]. *)
Definition returns (stakes : list Q) (best_odds : BestOdds) : list Q :=
  map (fun '(stake, (price, _)) => stake * price) (combine stakes (values best_odds)).

(** The bets reported for the stakes [stakes]. *)
Definition bets (stakes : list Q) (best_odds : BestOdds) : list ArbitrageCalculator.Opportunity :=
  map (fun '(outcome_name, stake, (price, bookmaker)) =>
         {| ArbitrageCalculator.outcome := outcome_name;
            ArbitrageCalculator.stake := py_round stake 2;
            ArbitrageCalculator.price := price;
            ArbitrageCalculator.bookmaker := bookmaker |})
      (combine (combine (keys best_odds) stakes) (values best_odds)).

(** ** Sample data *)

Definition sample_bookmakers : list Bookmaker :=
  [ {| title := "BookA";
       markets := [ {| outcomes := [ {| name := "Home"; price := 2.5 |};
                                     {| name := "Draw"; price := 3.4 |};
                                     {| name := "Away"; price := 4 |} ] |} ] |};
    {| title := "BookB";
       markets := [ {| outcomes := [ {| name := "Home"; price := 2.5 |};
                                     {| name := "Draw"; price := 3.6 |};
                                     {| name := "Away"; price := 4.2 |} ] |};
                    {| outcomes := [ {| name := "Home"; price := 9 |} ] |} ] |};
    {| title := "BookC"; markets := [] |};
    {| title := "BookD";
       markets := [ {| outcomes := [ {| name := "Away"; price := 4.2 |};
                                     {| name := "Draw"; price := 3.6 |} ] |} ] |} ].

Definition sample_payload : payload :=
  [ ("id", Text "e912304de2b2ce35b473ce2ecd3d1502");
    ("home_team", Text "Arsenal");
    ("away_team", Text "Chelsea");
    ("commence_time", Text "2024-05-04T11:30:00Z");
    ("bookmakers", Quotes sample_bookmakers) ].

Definition sample_match : Match.t :=
  {| Match.home_team := Text "Arsenal";
     Match.away_team := Text "Chelsea";
     Match.commence_time := Text "2024-05-04T11:30:00Z";
     Match.bookmakers := Quotes sample_bookmakers |}.

(** The best odds of [sample_match]. *)
Definition sample_best_odds : BestOdds :=
  [ ("Home", (2.5, "BookA")); ("Draw", (3.6, "BookB")); ("Away", (4.2, "BookB")) ].

(** A payload without its [commence_time]. *)
Definition truncated_payload : payload :=
  [ ("home_team", Text "Arsenal");
    ("away_team", Text "Chelsea");
    ("bookmakers", Quotes sample_bookmakers) ].

(** A snapshot none of whose bookmakers has a market. *)
Definition idle_match : Match.t :=
  {| Match.home_team := Text "Arsenal";
     Match.away_team := Text "Chelsea";
     Match.commence_time := Text "2024-05-04T11:30:00Z";
     Match.bookmakers := Quotes [ {| title := "BookA"; markets := [] |};
                                  {| title := "BookC"; markets := [] |} ] |}.

(** The calculator of [main]: a total stake of 100. *)
Definition calculator : ArbitrageCalculator.t :=
  ArbitrageCalculator.__init__ (Some 100).

(** Two outcomes at even odds: the implied probabilities sum to exactly 1. *)
Definition even_odds : BestOdds :=
  [ ("Home", (2, "BookA")); ("Away", (2, "BookB")) ].

(** One outcome whose implied probability is 0.999999. *)
Definition near_certain_odds : BestOdds :=
  [ ("Home", (1000000 # 999999, "BookA")) ].

(** One outcome at price 2. *)
Definition single_odds : BestOdds :=
  [ ("Home", (2, "BookA")) ].

(** A calculator built with a negative total stake. *)
Definition short_calculator : ArbitrageCalculator.t :=
  ArbitrageCalculator.__init__ (Some (-100)).

(** The result of a computation that returned one, or [dflt]. *)
Definition returned (dflt : ArbitrageCalculator.Result)
    (x : result (option ArbitrageCalculator.Result)) : ArbitrageCalculator.Result :=
  match x with
  | Return (Some r) => r
  | _ => dflt
  end.

Definition no_result : ArbitrageCalculator.Result :=
  {| ArbitrageCalculator.total_prob := 0;
     ArbitrageCalculator.is_arbitrage := false;
     ArbitrageCalculator.opportunities := [];
     ArbitrageCalculator.guaranteed_profit := 0 |}.

(** The results [evaluate] returns on the sample mappings. *)
Definition sample_result : ArbitrageCalculator.Result :=
  Eval vm_compute in
    returned no_result (ArbitrageCalculator.evaluate calculator sample_best_odds).

Definition even_result : ArbitrageCalculator.Result :=
  Eval vm_compute in
    returned no_result (ArbitrageCalculator.evaluate calculator even_odds).

Definition near_certain_result : ArbitrageCalculator.Result :=
  Eval vm_compute in
    returned no_result (ArbitrageCalculator.evaluate calculator near_certain_odds).

Definition short_result : ArbitrageCalculator.Result :=
  Eval vm_compute in
    returned no_result (ArbitrageCalculator.evaluate short_calculator single_odds).

(** ** The rest of the program: the HTTP client, [__str__] and [main] *)

(** [d.get(k, default)] *)
Definition dict_get_default {V : Type} (d : dict V) (k : string) (default : V) : V :=
  match dict_get d k with
  | Some v => v
  | None => default
  end.

(** The outcome names in the order of their first appearance. *)
Definition first_seen (names : list string) : list string :=
  fold_left
    (fun seen n => if existsb (String.eqb n) seen then seen else seen ++ [n])
    names [].

(** What the program reads of an HTTP response; [json] is the decoded body,
    an array of event payloads, and [headers] is looked up by the key as it
    is written. *)
Record Response : Type := {
  status_code : Z;
  text : string;
  headers : dict string;
  json : list payload
}.

(** What [except Exception as e] catches in [main]: the exception
    [fetch_odds] raises, [Exception(f"API Error: {status_code} {text}")],
    or one raised by [Match] or [ArbitrageCalculator]. *)
Inductive failure : Type :=
| ApiError (status_code : Z) (text : string)
| Builtin (e : exception).

(** A computation that [main] runs under its [try]. *)
Inductive attempt (A : Type) : Type :=
| Done (a : A)
| Failed (f : failure).

Arguments Done {A} a.
Arguments Failed {A} f.

Module OddsApiClient.

Definition BASE_URL : string :=
  "https://api.the-odds-api.com/v4/sports/soccer_epl/odds".

Record t : Type := { api_key : string }.

Definition __init__ (api_key : string) : t := {| api_key := api_key |}.

(** The value of a keyword argument that has a default. *)
Definition keyword (default : string) (given : option string) : string :=
  match given with
  | Some s => s
  | None => default
  end.

(** [requests_get] stands for [requests.get]: the network, which answers a
    URL and its query parameters with a response (a network that raises
    instead of answering is not modelled). *)
Definition fetch_odds (requests_get : string -> dict string -> Response) (self : t)
    (regions markets odds_format date_format : option string) : attempt Response :=
  let params :=
    [ ("apiKey", api_key self);
      ("regions", keyword "uk" regions);
      ("markets", keyword "h2h" markets);
      ("oddsFormat", keyword "decimal" odds_format);
      ("dateFormat", keyword "iso" date_format) ] in
  let response := requests_get BASE_URL params in
  if negb (Z.eqb (status_code response) 200)
  then Failed (ApiError (status_code response) (text response))
  else Done response.

End OddsApiClient.

(** The pieces of a printed line: literal text and the values an f-string
    or [print] formats into it, kept as values. *)
Inductive fragment : Type :=
| Lit (s : string)
| NL
| Int (n : nat)
| Str (s : string)
| Val (v : value)
| Num (q : Q)
| Err (f : failure).

(** One call of [print]. *)
Definition line : Type := list fragment.

(** [Match.__str__] *)
Definition Match_str (self : Match.t) : list fragment :=
  [Val (Match.home_team self); Lit " vs "; Val (Match.away_team self)].

(** ["-" * n] *)
Fixpoint dashes (n : nat) : string :=
  match n with
  | O => EmptyString
  | S n' => String.append "-" (dashes n')
  end.

Definition separator : line := [Lit (dashes 50)].

(** The lines [main] prints for the result of [evaluate]. *)
Definition print_result (arb_result : option ArbitrageCalculator.Result) : list line :=
  match arb_result with
  | None => []
  | Some r =>
      [NL; Lit "   Implied probability sum:"; Lit " ";
       Num (ArbitrageCalculator.total_prob r)] ::
      (if ArbitrageCalculator.is_arbitrage r then
         [Lit "   Arbitrage opportunity detected!"] ::
         map (fun opp =>
                [Lit "     Bet "; Num (ArbitrageCalculator.stake opp);
                 Lit " on "; Str (ArbitrageCalculator.outcome opp);
                 Lit " at "; Num (ArbitrageCalculator.price opp);
                 Lit " ("; Str (ArbitrageCalculator.bookmaker opp); Lit ")"])
             (ArbitrageCalculator.opportunities r)
         ++ [[Lit "   Guaranteed profit: ";
              Num (ArbitrageCalculator.guaranteed_profit r)]]
       else [[Lit "   No arbitrage possible for this game."]])
  end.

(** The body of the loop of [main] on the [i]-th event: the lines printed,
    and the exception that ended the body, if one did. *)
Definition print_event (calculator : ArbitrageCalculator.t) (i : nat)
    (match_data : payload) : list line * option exception :=
  match Match.__init__ match_data with
  | Raise e => ([], Some e)
  | Return m =>
      let printed :=
        [ [NL; Int i; Lit ". "] ++ Match_str m;
          [Lit "   Start time: "; Val (Match.commence_time m)] ] in
      match Match.get_best_odds m with
      | Raise e => (printed, Some e)
      | Return best_odds =>
          match ArbitrageCalculator.evaluate calculator best_odds with
          | Raise e => (printed, Some e)
          | Return arb_result =>
              (printed ++ print_result arb_result ++ [separator], None)
          end
      end
  end.

(** The loop of [main] over [enumerate(matches_data, start=i)]: an
    exception ends it. *)
Fixpoint print_events (calculator : ArbitrageCalculator.t) (i : nat)
    (matches_data : list payload) : list line * option exception :=
  match matches_data with
  | [] => ([], None)
  | match_data :: rest =>
      match print_event calculator i match_data with
      | (printed, Some e) => (printed, Some e)
      | (printed, None) =>
          let (more, e) := print_events calculator (S i) rest in
          (printed ++ more, e)
      end
  end.

Definition error_line (f : failure) : line := [Lit "An error occurred: "; Err f].

(** [main]: everything it prints. *)
Definition main (requests_get : string -> dict string -> Response) : list line :=
  let API_KEY := "APY_KEY" in
  let client := OddsApiClient.__init__ API_KEY in
  match OddsApiClient.fetch_odds requests_get client None None None None with
  | Failed f => [error_line f]
  | Done response =>
      let matches_data := json response in
      let remaining := dict_get_default (headers response) "x-requests-remaining" "N/A" in
      let used := dict_get_default (headers response) "x-requests-used" "N/A" in
      let calculator := ArbitrageCalculator.__init__ (Some 100) in
      let (printed, e) := print_events calculator 1 matches_data in
      [ [Lit "API credits used: "; Str used];
        [Lit "API credits remaining: "; Str remaining; NL];
        [Lit "Premier League Odds:"; NL] ]
      ++ printed
      ++ match e with
         | Some e => [error_line (Builtin e)]
         | None => []
         end
  end.

(** The lines of the events [matches_data], numbered from [i], each printed
    by the loop body on its own. *)
Fixpoint event_blocks (calculator : ArbitrageCalculator.t) (i : nat)
    (matches_data : list payload) : list line :=
  match matches_data with
  | [] => []
  | match_data :: rest =>
      fst (print_event calculator i match_data) ++ event_blocks calculator (S i) rest
  end.

(** A network that answers every request with [response]. *)
Definition answering (response : Response) : string -> dict string -> Response :=
  fun _ _ => response.

(** ** More sample data *)

Definition sample_response : Response :=
  {| status_code := 200;
     text := "[...]";
     headers := [("x-requests-remaining", "498"); ("x-requests-used", "2")];
     json := [sample_payload; truncated_payload; sample_payload] |}.

Definition quota_response : Response :=
  {| status_code := 401;
     text := "Usage quota has been reached";
     headers := [];
     json := [] |}.

(** A payload whose bookmakers have no market. *)
Definition idle_payload : payload :=
  [ ("home_team", Text "Arsenal");
    ("away_team", Text "Chelsea");
    ("commence_time", Text "2024-05-04T11:30:00Z");
    ("bookmakers", Quotes [ {| title := "BookA"; markets := [] |} ]) ].

(** [sample_best_odds] with the Home price raised. *)
Definition better_best_odds : BestOdds :=
  [ ("Home", (2.6, "BookD")); ("Draw", (3.6, "BookB")); ("Away", (4.2, "BookB")) ].

Definition better_result : ArbitrageCalculator.Result :=
  Eval vm_compute in
    returned no_result (ArbitrageCalculator.evaluate calculator better_best_odds).

(** The snapshot of the first bookmaker of [sample_bookmakers] alone. *)
Definition early_match : Match.t :=
  {| Match.home_team := Text "Arsenal";
     Match.away_team := Text "Chelsea";
     Match.commence_time := Text "2024-05-04T11:30:00Z";
     Match.bookmakers := Quotes (firstn 1 sample_bookmakers) |}.

Definition early_best_odds : BestOdds :=
  [ ("Home", (2.5, "BookA")); ("Draw", (3.4, "BookA")); ("Away", (4, "BookA")) ].

(** The request [main] sends, and the response the network gives it. *)
Definition main_response (requests_get : string -> dict string -> Response) : Response :=
  requests_get OddsApiClient.BASE_URL
    [ ("apiKey", "APY_KEY"); ("regions", "uk"); ("markets", "h2h");
      ("oddsFormat", "decimal"); ("dateFormat", "iso") ].

(** The three lines [main] prints before the events. *)
Definition header_lines (response : Response) : list line :=
  [ [Lit "API credits used: ";
     Str (dict_get_default (headers response) "x-requests-used" "N/A")];
    [Lit "API credits remaining: ";
     Str (dict_get_default (headers response) "x-requests-remaining" "N/A"); NL];
    [Lit "Premier League Odds:"; NL] ].

(** An answer whose events all report. *)
Definition calm_response : Response :=
  {| status_code := 200;
     text := "[...]";
     headers := [("x-requests-used", "3")];
     json := [sample_payload; idle_payload] |}.

(** The snapshot of [idle_payload]. *)
Definition idle_snapshot : Match.t :=
  {| Match.home_team := Text "Arsenal";
     Match.away_team := Text "Chelsea";
     Match.commence_time := Text "2024-05-04T11:30:00Z";
     Match.bookmakers := Quotes [ {| title := "BookA"; markets := [] |} ] |}.

(** [sample_match] with its bookmakers in the opposite order. *)
Definition reversed_match : Match.t :=
  {| Match.home_team := Text "Arsenal";
     Match.away_team := Text "Chelsea";
     Match.commence_time := Text "2024-05-04T11:30:00Z";
     Match.bookmakers := Quotes (rev sample_bookmakers) |}.

Definition reversed_best_odds : BestOdds :=
  Eval vm_compute in fold_left Match.visit_bookmaker (rev sample_bookmakers) [].

(** ** The evaluator in binary64

    [ArbitrageCalculator] above computes in exact arithmetic.  The
    definitions below follow the same source lines in the arithmetic the
    interpreter uses: a price or a stake is a Python [int] or a [float], a
    [float] is an IEEE 754 binary64 value, and every operation rounds to
    nearest, ties to even.  [sum] adds from the left, as CPython does up to
    version 3.11 (later versions compensate the sum of floats). *)

Definition binary64 : Type := spec_float.

Definition fadd : binary64 -> binary64 -> binary64 := SFadd 53 1024.
Definition fsub : binary64 -> binary64 -> binary64 := SFsub 53 1024.
Definition fmul : binary64 -> binary64 -> binary64 := SFmul 53 1024.
Definition fdiv : binary64 -> binary64 -> binary64 := SFdiv 53 1024.
Definition flt : binary64 -> binary64 -> bool := SFltb.
Definition feq : binary64 -> binary64 -> bool := SFeqb.

(** The binary64 value nearest to the fraction [n / d]; an infinity when
    the fraction is beyond the range. *)
Definition of_ratio (n : Z) (d : positive) : binary64 :=
  match n with
  | Z0 => S754_zero false
  | Zpos p => fdiv (S754_finite false p 0) (S754_finite false d 0)
  | Zneg p => fdiv (S754_finite true p 0) (S754_finite false d 0)
  end.

Definition fzero : binary64 := S754_zero false.
Definition fone : binary64 := of_ratio 1 1.

(** The rational a finite binary64 value denotes. *)
Definition exact (x : binary64) : Q :=
  match x with
  | S754_finite s m e =>
      let n := if s then Zneg m else Zpos m in
      match e with
      | Zneg k => n # (2 ^ k)
      | _ => inject_Z (n * 2 ^ e)
      end
  | _ => 0
  end.

(** A Python number. *)
Inductive number : Type :=
| PyInt (z : Z)
| PyFloat (x : binary64).

(** The conversion of an operand to [float]: an [int] beyond the range of
    binary64 raises. *)
Definition to_float (n : number) : result binary64 :=
  match n with
  | PyFloat x => Return x
  | PyInt z =>
      match of_ratio z 1 with
      | S754_infinity _ => Raise OverflowError
      | x => Return x
      end
  end.

(** [1 / price]: the quotient of two [int]s is rounded once. *)
Definition reciprocal (price : number) : result binary64 :=
  match price with
  | PyInt Z0 => Raise ZeroDivisionError
  | PyInt (Zpos p) => Return (of_ratio 1 p)
  | PyInt (Zneg p) => Return (of_ratio (-1) p)
  | PyFloat x => if feq x fzero then Raise ZeroDivisionError else Return (fdiv fone x)
  end.

(** [x / y] on floats. *)
Definition ftruediv (x y : binary64) : result binary64 :=
  if feq y fzero then Raise ZeroDivisionError else Return (fdiv x y).

(** [sum(l)] on floats: the [int] 0 becomes 0.0 at the first float. *)
Definition fsum (l : list binary64) : binary64 := fold_left fadd l fzero.

(** [min(l)] on floats: the first element that no later one is less than. *)
Definition fmin (l : list binary64) : result binary64 :=
  match l with
  | [] => Raise ValueError
  | x :: l' => Return (fold_left (fun m y => if flt y m then y else m) l' x)
  end.

(** [round(x, ndigits)] on a float, for [ndigits >= 0]: the exact value of
    [x] is rounded to [ndigits] decimals, ties to even, and the decimal is
    converted to the nearest binary64; zeros, infinities and NaN round to
    themselves. *)
Definition fround (x : binary64) (ndigits : nat) : binary64 :=
  match x with
  | S754_finite s _ _ =>
      let scale := (10 ^ Z.of_nat ndigits)%Z in
      match round_half_even (exact x * inject_Z scale) with
      | Z0 => S754_zero s
      | k => of_ratio k (Z.to_pos scale)
      end
  | _ => x
  end.

Module FloatCalculator.

Record t : Type := { total_stake : number }.

(** [total_stake] defaults to 100.0. *)
Definition __init__ (total_stake : option number) : t :=
  {| total_stake :=
       match total_stake with
       | Some s => s
       | None => PyFloat (of_ratio 100 1)
       end |}.

Record Opportunity : Type := {
  outcome : string;
  stake : binary64;
  price : number;
  bookmaker : string
}.

Record Result : Type := {
  total_prob : binary64;
  is_arbitrage : bool;
  opportunities : list Opportunity;
  guaranteed_profit : binary64
}.

(** [[1 / price for price, _ in best_odds.values()]] *)
Definition probabilities (best_odds : dict (number * string)) : result (list binary64) :=
  comprehension (fun '(price, _) => reciprocal price) (values best_odds).

(** The unrounded stakes, [strokes] in the source. *)
Definition strokes (self : t) (total_prob : binary64) (best_odds : dict (number * string))
    : result (list binary64) :=
  comprehension
    (fun '(price, _) =>
       p <- reciprocal price ;;
       share <- ftruediv p total_prob ;;
       stake <- to_float (total_stake self) ;;
       Return (fmul share stake))
    (values best_odds).

(** [stake * price] for each outcome. *)
Definition returns (stakes : list binary64) (best_odds : dict (number * string))
    : result (list binary64) :=
  comprehension
    (fun '(stake, (price, _)) =>
       p <- to_float price ;;
       Return (fmul stake p))
    (combine stakes (values best_odds)).

Definition evaluate (self : t) (best_odds : dict (number * string))
    : result (option Result) :=
  match best_odds with
  | [] => Return None
  | _ :: _ =>
      probs <- probabilities best_odds ;;
      let total := fsum probs in
      let res :=
        {| total_prob := fround total 4;
           is_arbitrage := flt total fone;
           opportunities := [];
           guaranteed_profit := fzero |} in
      if is_arbitrage res then
        stakes <- strokes self total best_odds ;;
        let bets :=
          map (fun '(outcome_name, stake, (price, bookmaker)) =>
                 {| outcome := outcome_name;
                    stake := fround stake 2;
                    price := price;
                    bookmaker := bookmaker |})
              (combine (combine (keys best_odds) stakes) (values best_odds)) in
        rets <- returns stakes best_odds ;;
        min_return <- fmin rets ;;
        bankroll <- to_float (total_stake self) ;;
        Return (Some {| total_prob := total_prob res;
                        is_arbitrage := is_arbitrage res;
                        opportunities := bets;
                        guaranteed_profit := fround (fsub min_return bankroll) 2 |})
      else Return (Some res)
  end.

End FloatCalculator.

(** The calculator of [main] in binary64: the [int] 100. *)
Definition fcalculator : FloatCalculator.t :=
  FloatCalculator.__init__ (Some (PyInt 100)).

(** A price written as a decimal fraction. *)
Definition decimal (n : Z) (d : positive) : number := PyFloat (of_ratio n d).

(** Prices 2, 3 and 6: the implied probabilities add up to 1 exactly and to
    0.9999999999999999 in binary64. *)
Definition thirds_odds : dict (number * string) :=
  [ ("Home", (PyInt 2, "BookA")); ("Draw", (PyInt 3, "BookB"));
    ("Away", (PyInt 6, "BookC")) ].

(** Prices 1.25 and 8.75: the two returns differ in the last place. *)
Definition uneven_odds : dict (number * string) :=
  [ ("Home", (decimal 125 100, "BookA")); ("Away", (decimal 875 100, "BookB")) ].

(** The sample mapping with its prices as floats. *)
Definition fsample_odds : dict (number * string) :=
  [ ("Home", (decimal 25 10, "BookA")); ("Draw", (decimal 36 10, "BookB"));
    ("Away", (decimal 42 10, "BookB")) ].

(** Even odds as [int]s: the sum is exactly 1.0. *)
Definition feven_odds : dict (number * string) :=
  [ ("Home", (PyInt 2, "BookA")); ("Away", (PyInt 2, "BookB")) ].

(** A price that [1 / price] cannot divide by: the [int] 0, 0.0 or -0.0. *)
Definition zero_price (n : number) : bool :=
  match n with
  | PyInt z => Z.eqb z 0
  | PyFloat x => feq x fzero
  end.

(** An [int] beyond the range of binary64. *)
Definition too_large (n : number) : Prop := to_float n = Raise OverflowError.

(** The results of the binary64 evaluator on the sample mappings. *)
Definition freturned (x : result (option FloatCalculator.Result))
    : FloatCalculator.Result :=
  match x with
  | Return (Some r) => r
  | _ => {| FloatCalculator.total_prob := fzero;
            FloatCalculator.is_arbitrage := false;
            FloatCalculator.opportunities := [];
            FloatCalculator.guaranteed_profit := fzero |}
  end.

Definition thirds_result : FloatCalculator.Result :=
  Eval vm_compute in freturned (FloatCalculator.evaluate fcalculator thirds_odds).

Definition uneven_result : FloatCalculator.Result :=
  Eval vm_compute in freturned (FloatCalculator.evaluate fcalculator uneven_odds).

Definition thirds_probabilities : list binary64 :=
  Eval vm_compute in
    match FloatCalculator.probabilities thirds_odds with
    | Return probs => probs
    | Raise _ => []
    end.

(** One outcome at the [int] price -2, and one at a zero price after a
    regular one. *)
Definition fnegative_odds : dict (number * string) :=
  [ ("Home", (PyInt (-2), "BookA")) ].

Definition fzero_odds : dict (number * string) :=
  [ ("Home", (decimal 25 10, "BookA")); ("Away", (PyFloat (S754_zero true), "BookB")) ].

Definition fnegative_result : FloatCalculator.Result :=
  Eval vm_compute in freturned (FloatCalculator.evaluate fcalculator fnegative_odds).

(** The [int] 10 ** 400 as a price. *)
Definition huge_odds : dict (number * string) :=
  [ ("Home", (PyInt 2, "BookA")); ("Away", (PyInt (10 ^ 400), "BookB")) ].

(** The bets the binary64 evaluator reports for the stakes [stakes]. *)
Definition fbets (stakes : list binary64) (best_odds : dict (number * string))
    : list FloatCalculator.Opportunity :=
  map (fun '(outcome_name, stake, (price, bookmaker)) =>
         {| FloatCalculator.outcome := outcome_name;
            FloatCalculator.stake := fround stake 2;
            FloatCalculator.price := price;
            FloatCalculator.bookmaker := bookmaker |})
      (combine (combine (keys best_odds) stakes) (values best_odds)).

(** One outcome at the price 1000000/999999: its implied probability is the
    binary64 value 0.999999. *)
Definition fnear_certain_odds : dict (number * string) :=
  [ ("Home", (decimal 1000000 999999, "BookA")) ].

(** The binary64 result on the sample mapping. *)
Definition fsample_result : FloatCalculator.Result :=
  Eval vm_compute in freturned (FloatCalculator.evaluate fcalculator fsample_odds).

(** Prices 2 and -2: the implied probabilities cancel. *)
Definition fcancelling_odds : dict (number * string) :=
  [ ("Home", (PyInt 2, "BookA")); ("Away", (PyInt (-2), "BookB")) ].

(** Prices 2, 3, 6 and -1: the implied probabilities add up to 0 exactly
    and to -1.1102230246251565e-16 in binary64. *)
Definition offset_odds : dict (number * string) :=
  [ ("Home", (PyInt 2, "BookA")); ("Draw", (PyInt 3, "BookB"));
    ("Away", (PyInt 6, "BookC")); ("Void", (PyInt (-1), "BookD")) ].

(** ** Dictionaries *)

Section DictFacts.
Variable V : Type.
Implicit Types (d : dict V) (k : string) (v : V).

Lemma dict_get_set_same d k v : dict_get (dict_set d k v) k = Some v.
Proof.
  induction d as [|[k' v'] d IH]; simpl.
  - now rewrite String.eqb_refl.
  - destruct (String.eqb k' k) eqn:E; simpl.
    + now rewrite String.eqb_refl.
    + now rewrite E.
Qed.

Lemma dict_get_set_other d k k' v :
  k <> k' -> dict_get (dict_set d k v) k' = dict_get d k'.
Proof.
  intros Hne. induction d as [|[k0 v0] d IH]; simpl.
  - destruct (String.eqb_spec k k'); [contradiction | reflexivity].
  - destruct (String.eqb_spec k0 k) as [->|Hk]; simpl.
    + destruct (String.eqb_spec k k'); [contradiction | reflexivity].
    + now rewrite IH.
Qed.

Lemma getitem_Return d k v : getitem d k = Return v -> dict_get d k = Some v.
Proof. unfold getitem. destruct (dict_get d k); congruence. Qed.

Lemma getitem_missing d k : dict_get d k = None -> getitem d k = Raise (KeyError k).
Proof. unfold getitem. now intros ->. Qed.
End DictFacts.

Arguments dict_get_set_same {V} d k v.
Arguments dict_get_set_other {V} d k k' v _.

(** ** Comparisons *)

Lemma Qgt_bool_true a b : Qgt_bool a b = true <-> b < a.
Proof.
  unfold Qgt_bool. rewrite negb_true_iff, <- not_true_iff_false, Qle_bool_iff.
  split; [apply Qnot_le_lt | apply Qlt_not_le].
Qed.

Lemma Qgt_bool_false a b : Qgt_bool a b = false <-> a <= b.
Proof. unfold Qgt_bool. now rewrite negb_false_iff, Qle_bool_iff. Qed.

Lemma Qlt_bool_true a b : Qlt_bool a b = true <-> a < b.
Proof. apply Qgt_bool_true. Qed.

Lemma Qlt_bool_false a b : Qlt_bool a b = false <-> b <= a.
Proof. apply Qgt_bool_false. Qed.

(** ** The selector *)

Lemma selected_bound qs n p b :
  selected qs n p b -> forall q, In q qs -> quote_for n q -> price (snd q) <= p.
Proof.
  intros (pre & o & post & -> & Hn & Hp & Hpre & Hpost) q Hin Hq.
  apply in_app_or in Hin. destruct Hin as [Hin | [<- | Hin]].
  - apply Qlt_le_weak. now apply Hpre.
  - simpl. rewrite Hp. apply Qle_refl.
  - now apply Hpost.
Qed.

Lemma selected_later qs n p b q :
  (quote_for n q -> price (snd q) <= p) ->
  selected qs n p b -> selected (qs ++ [q]) n p b.
Proof.
  intros Hq (pre & o & post & -> & Hn & Hp & Hpre & Hpost).
  exists pre, o, (post ++ [q]). repeat split; auto.
  - now rewrite <- app_assoc.
  - intros q' Hin Hq'. apply in_app_or in Hin. destruct Hin as [Hin | [<- | []]]; auto.
Qed.

Lemma selected_last qs b o :
  (forall q, In q qs -> quote_for (name o) q -> price (snd q) < price o) ->
  selected (qs ++ [(b, o)]) (name o) (price o) b.
Proof.
  intros H. exists qs, o, []. repeat split; auto.
  intros q [].
Qed.

Lemma visit_quote_best_of qs d q :
  best_of qs d -> best_of (qs ++ [q]) (visit_quote d q).
Proof.
  intros Hinv n. destruct q as [b o].
  unfold visit_quote, Match.visit_outcome; simpl.
  pose proof (Hinv (name o)) as Ho. pose proof (Hinv n) as Hn.
  destruct (dict_get d (name o)) as [[p0 b0]|] eqn:Eo; simpl.
  - destruct (Qgt_bool (price o) p0) eqn:Egt.
    + apply Qgt_bool_true in Egt.
      destruct (String.eqb_spec (name o) n) as [<-|Hne].
      * rewrite dict_get_set_same. apply selected_last.
        intros q Hin Hq. eapply Qle_lt_trans; [|exact Egt].
        eapply selected_bound; eauto.
      * rewrite dict_get_set_other by assumption.
        destruct (dict_get d n) as [[p b']|].
        -- apply selected_later; [|assumption]. intros Hq. now elim Hne.
        -- intros q Hin. apply in_app_or in Hin. destruct Hin as [Hin | [<- | []]]; auto.
    + apply Qgt_bool_false in Egt.
      destruct (String.eqb_spec (name o) n) as [<-|Hne].
      * rewrite Eo. apply selected_later; [|assumption]. now intros _.
      * destruct (dict_get d n) as [[p b']|].
        -- apply selected_later; [|assumption]. intros Hq. now elim Hne.
        -- intros q Hin. apply in_app_or in Hin. destruct Hin as [Hin | [<- | []]]; auto.
  - destruct (String.eqb_spec (name o) n) as [<-|Hne].
    + rewrite dict_get_set_same. apply selected_last.
      intros q Hin Hq. now elim (Ho q Hin).
    + rewrite dict_get_set_other by assumption.
      destruct (dict_get d n) as [[p b']|].
      * apply selected_later; [|assumption]. intros Hq. now elim Hne.
      * intros q Hin. apply in_app_or in Hin. destruct Hin as [Hin | [<- | []]]; auto.
Qed.

Lemma fold_visit_quote_best_of qs : forall qs0 d,
  best_of qs0 d -> best_of (qs0 ++ qs) (fold_left visit_quote qs d).
Proof.
  induction qs as [|q qs IH]; intros qs0 d Hinv; simpl.
  - now rewrite app_nil_r.
  - replace (qs0 ++ q :: qs) with ((qs0 ++ [q]) ++ qs) by now rewrite <- app_assoc.
    apply IH. now apply visit_quote_best_of.
Qed.

Lemma visit_bookmaker_quotes d b :
  Match.visit_bookmaker d b = fold_left visit_quote (first_market_quotes b) d.
Proof.
  unfold Match.visit_bookmaker, first_market_quotes.
  destruct (markets b) as [|market _]; [reflexivity|].
  generalize d. induction (outcomes market) as [|o os IH]; intros d'; simpl; auto.
Qed.

Lemma fold_visit_bookmaker_quotes bs : forall d,
  fold_left Match.visit_bookmaker bs d = fold_left visit_quote (quotes bs) d.
Proof.
  induction bs as [|b bs IH]; intros d; simpl; [reflexivity|].
  unfold quotes in *. simpl. now rewrite fold_left_app, IH, visit_bookmaker_quotes.
Qed.

Lemma best_odds_best_of bs :
  best_of (quotes bs) (fold_left Match.visit_bookmaker bs []).
Proof.
  rewrite fold_visit_bookmaker_quotes.
  apply (fold_visit_quote_best_of (quotes bs) [] []).
  intros n q [].
Qed.

(** ** Exceptions in comprehensions and divisions *)

Lemma truediv_Return x y z : truediv x y = Return z <-> ~ y == 0 /\ z = x / y.
Proof.
  unfold truediv. destruct (Qeq_bool y 0) eqn:E.
  - apply Qeq_bool_iff in E. split; [discriminate | intros [H _]; contradiction].
  - apply Qeq_bool_neq in E. split.
    + intros [= <-]. now split.
    + now intros [_ ->].
Qed.

Lemma truediv_zero x y : y == 0 -> truediv x y = Raise ZeroDivisionError.
Proof. intros H. unfold truediv. apply Qeq_bool_iff in H. now rewrite H. Qed.

Lemma truediv_nonzero x y : ~ y == 0 -> truediv x y = Return (x / y).
Proof. intros H. now apply truediv_Return. Qed.

Section Comprehension.
Variables A B : Type.
Variable f : A -> result B.

Lemma comprehension_map (g : A -> B) l :
  (forall a, In a l -> f a = Return (g a)) ->
  comprehension f l = Return (map g l).
Proof.
  induction l as [|a l IH]; intros H; simpl; [reflexivity|].
  rewrite (H a) by now left. simpl.
  rewrite IH by (intros; apply H; now right). reflexivity.
Qed.

Lemma comprehension_Return l bs :
  comprehension f l = Return bs -> Forall2 (fun a b => f a = Return b) l bs.
Proof.
  revert bs. induction l as [|a l IH]; intros bs; simpl.
  - intros [= <-]. constructor.
  - destruct (f a) as [b|e] eqn:Ea; simpl; [|discriminate].
    destruct (comprehension f l) as [bs'|e]; simpl; [|discriminate].
    intros [= <-]. constructor; auto.
Qed.

Lemma comprehension_Raise e l :
  (forall a, In a l -> f a = Raise e \/ exists b, f a = Return b) ->
  (exists a, In a l /\ f a = Raise e) ->
  comprehension f l = Raise e.
Proof.
  induction l as [|a l IH]; intros Hall (a0 & Hin & Ha0); [destruct Hin|].
  simpl. destruct (Hall a (or_introl eq_refl)) as [Ea | [b Ea]]; rewrite Ea; [reflexivity|].
  simpl. rewrite IH; [reflexivity | intros; apply Hall; now right |].
  destruct Hin as [<- | Hin]; [congruence | eauto].
Qed.
End Comprehension.

(** ** Sums and minima *)

Lemma fold_left_Qplus l : forall a, fold_left Qplus l a == a + py_sum l.
Proof.
  unfold py_sum. induction l as [|x l IH]; intros a; simpl.
  - ring.
  - rewrite IH, (IH (0 + x)). ring.
Qed.

Lemma py_sum_cons x l : py_sum (x :: l) == x + py_sum l.
Proof. unfold py_sum at 1. simpl. rewrite fold_left_Qplus. ring. Qed.

Lemma py_sum_scaled (A : Type) (f : A -> Q) (c : Q) l :
  py_sum (map (fun a => f a * c) l) == py_sum (map f l) * c.
Proof.
  induction l as [|a l IH]; simpl.
  - unfold py_sum; simpl. ring.
  - rewrite !py_sum_cons, IH. ring.
Qed.

Lemma py_sum_pos l : l <> [] -> (forall x, In x l -> 0 < x) -> 0 < py_sum l.
Proof.
  induction l as [|x l IH]; intros Hne Hpos; [congruence|].
  rewrite py_sum_cons. destruct l as [|y l].
  - unfold py_sum; simpl. specialize (Hpos x (or_introl eq_refl)). lra.
  - assert (0 < x) by (apply Hpos; now left).
    assert (0 < py_sum (y :: l)) by (apply IH; [discriminate | intros; apply Hpos; now right]).
    lra.
Qed.

Lemma fold_min_spec l : forall x,
  let m := fold_left (fun m y => if Qlt_bool y m then y else m) l x in
  In m (x :: l) /\ forall y, In y (x :: l) -> m <= y.
Proof.
  induction l as [|z l IH]; intros x; simpl.
  - split; [now left | intros y [<- | []]; apply Qle_refl].
  - destruct (Qlt_bool z x) eqn:E.
    + apply Qlt_bool_true in E. destruct (IH z) as [Hin Hle]. split.
      * right. exact Hin.
      * intros y [<- | Hy]; [|now apply Hle].
        apply Qle_trans with z; [apply Hle; now left | now apply Qlt_le_weak].
    + apply Qlt_bool_false in E. destruct (IH x) as [Hin Hle]. split.
      * destruct Hin as [Hin | Hin]; [now left | right; now right].
      * intros y [<- | [<- | Hy]].
        -- apply Hle; now left.
        -- apply Qle_trans with x; [apply Hle; now left | assumption].
        -- apply Hle; now right.
Qed.

Lemma py_min_spec l m :
  py_min l = Return m -> In m l /\ forall y, In y l -> m <= y.
Proof.
  destruct l as [|x l]; simpl; [discriminate|].
  intros [= <-]. apply fold_min_spec.
Qed.

Lemma py_min_nonempty l : l <> [] -> exists m, py_min l = Return m.
Proof. destruct l; [congruence | simpl; eauto]. Qed.

(** ** The evaluator *)

Section Evaluator.
Import ArbitrageCalculator.

Lemma probabilities_Return (vs : list (Q * string)) ps :
  comprehension (fun '(price, _) => truediv 1 price) vs = Return ps ->
  (forall v, In v vs -> ~ fst v == 0) /\
  ps = map (fun v => implied_probability (fst v)) vs.
Proof.
  intros H. apply comprehension_Return in H.
  induction H as [|[p b] q vs ps Hq _ IH]; simpl.
  - split; [intros v [] | reflexivity].
  - apply truediv_Return in Hq. destruct Hq as [Hp ->]. destruct IH as [Hnz ->].
    split; [|reflexivity].
    intros v [<- | Hin]; auto.
Qed.

Lemma probabilities_nonzero (vs : list (Q * string)) :
  (forall v, In v vs -> ~ fst v == 0) ->
  comprehension (fun '(price, _) => truediv 1 price) vs
  = Return (map (fun v => implied_probability (fst v)) vs).
Proof.
  intros H. apply comprehension_map. intros [p b] Hin.
  apply truediv_nonzero. exact (H _ Hin).
Qed.

Lemma probabilities_zero (vs : list (Q * string)) :
  (exists v, In v vs /\ fst v == 0) ->
  comprehension (fun '(price, _) => truediv 1 price) vs = Raise ZeroDivisionError.
Proof.
  intros (v & Hin & Hz). apply comprehension_Raise.
  - intros [p b] _. unfold truediv. destruct (Qeq_bool p 0); eauto.
  - exists v. split; [assumption|]. destruct v as [p b]. now apply truediv_zero.
Qed.

Lemma strokes_nonzero self (bo : BestOdds) :
  (forall v, In v (values bo) -> ~ fst v == 0) ->
  ~ implied_sum bo == 0 ->
  strokes self (implied_sum bo) bo = Return (proportional_stakes self bo).
Proof.
  intros Hnz Hsum. unfold strokes, proportional_stakes.
  apply comprehension_map. intros [p b] Hin.
  rewrite truediv_nonzero by exact (Hnz _ Hin). simpl.
  now rewrite truediv_nonzero by assumption.
Qed.

Lemma strokes_Return self total (bo : BestOdds) stakes :
  bo <> [] -> strokes self total bo = Return stakes -> ~ total == 0.
Proof.
  intros Hne H Hz. destruct bo as [|[k [p b]] bo]; [congruence|].
  unfold strokes in H. simpl in H.
  unfold truediv at 1 in H. destruct (Qeq_bool p 0); [discriminate|]. simpl in H.
  rewrite (truediv_zero _ _ Hz) in H. discriminate.
Qed.

(** What a returned result holds, read off the body of [evaluate]. *)
Lemma evaluate_Some self (bo : BestOdds) r :
  evaluate self bo = Return (Some r) ->
  bo <> [] /\
  (forall v, In v (values bo) -> ~ fst v == 0) /\
  total_prob r = py_round (implied_sum bo) 4 /\
  is_arbitrage r = Qlt_bool (implied_sum bo) 1 /\
  (is_arbitrage r = true ->
     ~ implied_sum bo == 0 /\
     strokes self (implied_sum bo) bo = Return (proportional_stakes self bo) /\
     opportunities r = bets (proportional_stakes self bo) bo /\
     exists min_return,
       py_min (returns (proportional_stakes self bo) bo) = Return min_return /\
       guaranteed_profit r = py_round (min_return - total_stake self) 2) /\
  (is_arbitrage r = false -> opportunities r = [] /\ guaranteed_profit r = 0).
Proof.
  intros H. destruct bo as [|e bo']; [discriminate|].
  unfold evaluate in H.
  assert (Hne : e :: bo' <> []) by discriminate.
  remember (e :: bo') as bo eqn:Ebo. clear Ebo e bo'.
  destruct (comprehension _ (values bo)) as [ps|ex] eqn:Eps; simpl in H; [|discriminate].
  apply probabilities_Return in Eps. destruct Eps as [Hnz ->].
  change (py_sum (map (fun v => implied_probability (fst v)) (values bo)))
    with (implied_sum bo) in H.
  destruct (Qlt_bool (implied_sum bo) 1) eqn:Elt.
  - destruct (strokes self (implied_sum bo) bo) as [stakes|ex] eqn:Es; simpl in H; [|discriminate].
    pose proof (strokes_Return self _ bo stakes Hne Es) as Hsum.
    rewrite (strokes_nonzero self bo Hnz Hsum) in Es. injection Es as <-.
    change (map _ (combine (proportional_stakes self bo) (values bo)))
      with (returns (proportional_stakes self bo) bo) in H.
    destruct (py_min (returns (proportional_stakes self bo) bo)) as [m|ex] eqn:Em;
      simpl in H; [|discriminate].
    injection H as <-. simpl. repeat split; auto; try discriminate.
    now exists m.
  - injection H as <-. simpl. repeat split; auto; discriminate.
Qed.

(** [evaluate] returns a result on every non-empty mapping with no zero
    price whose aggregate implied probability is not zero. *)
Lemma evaluate_returns self (bo : BestOdds) :
  bo <> [] ->
  (forall v, In v (values bo) -> ~ fst v == 0) ->
  ~ implied_sum bo == 0 ->
  exists r, evaluate self bo = Return (Some r).
Proof.
  intros Hne Hnz Hsum. destruct bo as [|e bo']; [congruence|].
  unfold evaluate. remember (e :: bo') as bo eqn:Ebo.
  rewrite (probabilities_nonzero _ Hnz). simpl.
  change (py_sum (map (fun v => implied_probability (fst v)) (values bo)))
    with (implied_sum bo).
  destruct (Qlt_bool (implied_sum bo) 1); [|eauto].
  rewrite (strokes_nonzero self bo Hnz Hsum). simpl.
  destruct (py_min_nonempty
              (map (fun '(stake, (price, _)) => stake * price)
                   (combine (proportional_stakes self bo) (values bo)))) as [m ->].
  - subst bo. destruct e as [k [p b]]. discriminate.
  - simpl. eauto.
Qed.

Lemma implied_sum_pos (bo : BestOdds) :
  bo <> [] -> (forall v, In v (values bo) -> 0 < fst v) -> 0 < implied_sum bo.
Proof.
  intros Hne Hpos. apply py_sum_pos.
  - destruct bo; [congruence | discriminate].
  - intros x Hx. apply in_map_iff in Hx. destruct Hx as (v & <- & Hv).
    unfold implied_probability. specialize (Hpos v Hv).
    unfold Qdiv. rewrite Qmult_1_l. now apply Qinv_lt_0_compat.
Qed.

(** On positive prices [evaluate] always returns a result. *)
Lemma evaluate_returns_pos self (bo : BestOdds) :
  bo <> [] ->
  (forall v, In v (values bo) -> 0 < fst v) ->
  exists r, evaluate self bo = Return (Some r).
Proof.
  intros Hne Hpos. apply evaluate_returns; [assumption| |].
  - intros v Hv Hz. specialize (Hpos v Hv). rewrite Hz in Hpos. now apply Qlt_irrefl in Hpos.
  - intros Hz. pose proof (implied_sum_pos bo Hne Hpos) as H. rewrite Hz in H.
    now apply Qlt_irrefl in H.
Qed.

End Evaluator.

Example sample_init : Match.__init__ sample_payload = Return sample_match.
Proof. reflexivity. Qed.

Example sample_get_best_odds : Match.get_best_odds sample_match = Return sample_best_odds.
Proof. reflexivity. Qed.

(** ** Properties of [Match] *)

Lemma in_quotes bs q :
  In q (quotes bs) <-> exists bk, In bk bs /\ offers bk (snd q) /\ title bk = fst q.
Proof.
  unfold quotes. rewrite in_flat_map. split.
  - intros (bk & Hbk & Hq). exists bk. split; [assumption|].
    unfold first_market_quotes, offers in *.
    destruct (markets bk) as [|market rest]; [destruct Hq|].
    apply in_map_iff in Hq. destruct Hq as (o & <- & Ho). now split.
  - intros (bk & Hbk & Ho & Ht). exists bk. split; [assumption|].
    unfold first_market_quotes, offers in *.
    destruct (markets bk) as [|market rest]; [destruct Ho|].
    apply in_map_iff. exists (snd q). split; [|assumption].
    rewrite Ht. now destruct q.
Qed.

Lemma get_best_odds_Quotes m bs :
  Match.bookmakers m = Quotes bs ->
  Match.get_best_odds m = Return (fold_left Match.visit_bookmaker bs []).
Proof. unfold Match.get_best_odds. now intros ->. Qed.

Lemma find_selected qs n p b :
  selected qs n p b ->
  exists o, find (quotes_at n p) qs = Some (b, o) /\ name o = n /\ price o = p.
Proof.
  intros (pre & o & post & -> & Hn & Hp & Hpre & _). exists o. repeat split; auto.
  induction pre as [|q pre IH]; simpl.
  - unfold quotes_at; simpl. rewrite Hn, Hp, String.eqb_refl.
    now rewrite (proj2 (Qeq_bool_iff p p) (Qeq_refl p)).
  - unfold quotes_at at 1.
    destruct (String.eqb_spec (name (snd q)) n) as [Hq|Hq]; simpl.
    + assert (Hlt : price (snd q) < p) by (apply Hpre; [now left | exact Hq]).
      destruct (Qeq_bool (price (snd q)) p) eqn:E.
      * apply Qeq_bool_iff in E. rewrite E in Hlt. now apply Qlt_irrefl in Hlt.
      * apply IH. intros q' Hin. apply Hpre. now right.
    + apply IH. intros q' Hin. apply Hpre. now right.
Qed.

(** C1. Best-price correctness: for a snapshot whose bookmakers are [bs],
    [get_best_odds] returns a mapping in which every outcome name quoted in
    some bookmaker's first market is recorded with a price that no
    first-market quote for that outcome exceeds, and that price is the one
    a bookmaker of the recorded title quotes for the outcome in its first
    market. *)
Theorem get_best_odds_maximum (m : Match.t) (bs : list Bookmaker) :
  Match.bookmakers m = Quotes bs ->
  exists best_odds,
    Match.get_best_odds m = Return best_odds /\
    forall n,
      (exists bk o, In bk bs /\ offers bk o /\ name o = n) ->
      exists p b,
        dict_get best_odds n = Some (p, b) /\
        (forall bk o, In bk bs -> offers bk o -> name o = n -> price o <= p) /\
        (exists bk o, In bk bs /\ offers bk o /\ name o = n /\
                      price o = p /\ title bk = b).
Proof.
  intros Hm. eexists. split; [exact (get_best_odds_Quotes m bs Hm)|].
  intros n (bk & o & Hbk & Ho & Hn).
  pose proof (best_odds_best_of bs n) as Hinv.
  destruct (dict_get (fold_left Match.visit_bookmaker bs []) n) as [[p b]|].
  - exists p, b. split; [reflexivity|]. split.
    + intros bk' o' Hbk' Ho' Hn'.
      apply (selected_bound _ _ _ _ Hinv (title bk', o')); [|exact Hn'].
      apply in_quotes. now exists bk'.
    + destruct Hinv as (pre & o' & post & Hqs & Hn' & Hp & _).
      assert (Hin : In (b, o') (quotes bs)) by (rewrite Hqs; apply in_elt).
      apply in_quotes in Hin. destruct Hin as (bk' & Hbk' & Ho' & Ht).
      now exists bk', o'.
  - exfalso. apply (Hinv (title bk, o)); [|exact Hn].
    apply in_quotes. now exists bk.
Qed.

Lemma get_best_odds_maximum_witness :
  exists best_odds,
    Match.get_best_odds sample_match = Return best_odds /\
    forall n,
      (exists bk o, In bk sample_bookmakers /\ offers bk o /\ name o = n) ->
      exists p b,
        dict_get best_odds n = Some (p, b) /\
        (forall bk o, In bk sample_bookmakers -> offers bk o -> name o = n -> price o <= p) /\
        (exists bk o, In bk sample_bookmakers /\ offers bk o /\ name o = n /\
                      price o = p /\ title bk = b).
Proof. exact (get_best_odds_maximum sample_match sample_bookmakers eq_refl). Defined.

(** C6. Tie-break: a quote whose price does not exceed the recorded best
    for its outcome leaves the mapping as it is, a strictly greater one
    replaces the record; hence [get_best_odds] records every outcome quoted
    in some bookmaker's first market, and each record carries the best
    price together with the bookmaker of the first quote, in snapshot
    order, that offers the outcome at that price. *)
Theorem get_best_odds_first_seen (m : Match.t) (bs : list Bookmaker) :
  Match.bookmakers m = Quotes bs ->
  (forall bookmaker_name best_odds o p b,
     dict_get best_odds (name o) = Some (p, b) ->
     (price o <= p -> Match.visit_outcome bookmaker_name best_odds o = best_odds) /\
     (p < price o ->
      dict_get (Match.visit_outcome bookmaker_name best_odds o) (name o)
      = Some (price o, bookmaker_name))) /\
  exists best_odds,
    Match.get_best_odds m = Return best_odds /\
    (forall n,
       (exists bk o, In bk bs /\ offers bk o /\ name o = n) ->
       exists p b, dict_get best_odds n = Some (p, b)) /\
    forall n p b,
      dict_get best_odds n = Some (p, b) ->
      (forall q, In q (quotes bs) -> quote_for n q -> price (snd q) <= p) /\
      exists o, find (quotes_at n p) (quotes bs) = Some (b, o) /\
                name o = n /\ price o = p.
Proof.
  intros Hm. split.
  - intros bookmaker_name d o p b Hget. unfold Match.visit_outcome. rewrite Hget. simpl.
    split; intros Hp.
    + now rewrite (proj2 (Qgt_bool_false (price o) p) Hp).
    + rewrite (proj2 (Qgt_bool_true (price o) p) Hp). apply dict_get_set_same.
  - eexists. split; [exact (get_best_odds_Quotes m bs Hm)|]. split.
    + intros n (bk & o & Hbk & Ho & Hn).
      pose proof (best_odds_best_of bs n) as Hinv.
      destruct (dict_get (fold_left Match.visit_bookmaker bs []) n) as [[p b]|].
      * now exists p, b.
      * exfalso. apply (Hinv (title bk, o)); [|exact Hn].
        apply in_quotes. now exists bk.
    + intros n p b Hget. pose proof (best_odds_best_of bs n) as Hinv.
      rewrite Hget in Hinv. split.
      * now apply selected_bound with b.
      * now apply find_selected.
Qed.

Lemma get_best_odds_first_seen_witness :
  (forall bookmaker_name best_odds o p b,
     dict_get best_odds (name o) = Some (p, b) ->
     (price o <= p -> Match.visit_outcome bookmaker_name best_odds o = best_odds) /\
     (p < price o ->
      dict_get (Match.visit_outcome bookmaker_name best_odds o) (name o)
      = Some (price o, bookmaker_name))) /\
  exists best_odds,
    Match.get_best_odds sample_match = Return best_odds /\
    (forall n,
       (exists bk o, In bk sample_bookmakers /\ offers bk o /\ name o = n) ->
       exists p b, dict_get best_odds n = Some (p, b)) /\
    forall n p b,
      dict_get best_odds n = Some (p, b) ->
      (forall q, In q (quotes sample_bookmakers) -> quote_for n q -> price (snd q) <= p) /\
      exists o, find (quotes_at n p) (quotes sample_bookmakers) = Some (b, o) /\
                name o = n /\ price o = p.
Proof. exact (get_best_odds_first_seen sample_match sample_bookmakers eq_refl). Defined.

(** In [sample_match] BookA and BookB both quote Home at 2.5, and BookB and
    BookD both quote Away at 4.2: the earlier bookmaker is kept. *)
Example sample_ties :
  dict_get sample_best_odds "Home" = Some (2.5, "BookA") /\
  dict_get sample_best_odds "Away" = Some (4.2, "BookB").
Proof. split; reflexivity. Qed.

Lemma init_first_missing (match_data : payload) :
  (exists k, In k required_fields /\ dict_get match_data k = None) ->
  exists k, In k required_fields /\ dict_get match_data k = None /\
            Match.__init__ match_data = Raise (KeyError k).
Proof.
  intros (k0 & Hin & Hk0). unfold Match.__init__, getitem, required_fields in *.
  destruct (dict_get match_data "home_team") eqn:E1;
    [|exists "home_team"; simpl; auto].
  destruct (dict_get match_data "away_team") eqn:E2;
    [|exists "away_team"; simpl; auto].
  destruct (dict_get match_data "commence_time") eqn:E3;
    [|exists "commence_time"; simpl; auto].
  destruct (dict_get match_data "bookmakers") eqn:E4;
    [|exists "bookmakers"; simpl; auto 6].
  exfalso. simpl in Hin. destruct Hin as [<-|[<-|[<-|[<-|[]]]]]; congruence.
Qed.

(** C9. A payload that lacks one of [home_team], [away_team],
    [commence_time], [bookmakers] makes the construction of the snapshot
    raise [KeyError] with the name of a missing field, and no snapshot is
    produced; a snapshot that is produced holds all four fields of the
    payload. *)
Theorem init_fails_on_missing_field (match_data : payload) :
  ((exists k, In k required_fields /\ dict_get match_data k = None) ->
   (exists k, In k required_fields /\ dict_get match_data k = None /\
              Match.__init__ match_data = Raise (KeyError k)) /\
   (forall m, Match.__init__ match_data <> Return m)) /\
  (forall m, Match.__init__ match_data = Return m ->
     dict_get match_data "home_team" = Some (Match.home_team m) /\
     dict_get match_data "away_team" = Some (Match.away_team m) /\
     dict_get match_data "commence_time" = Some (Match.commence_time m) /\
     dict_get match_data "bookmakers" = Some (Match.bookmakers m)).
Proof.
  split.
  - intros H. destruct (init_first_missing match_data H) as (k & Hin & Hk & E).
    split; [now exists k|]. intros m. rewrite E. discriminate.
  - intros m. unfold Match.__init__, getitem.
    destruct (dict_get match_data "home_team"); [|discriminate].
    destruct (dict_get match_data "away_team"); [|discriminate].
    destruct (dict_get match_data "commence_time"); [|discriminate].
    destruct (dict_get match_data "bookmakers"); [|discriminate].
    simpl. now intros [= <-].
Qed.

Lemma init_fails_on_missing_field_witness :
  (exists k, In k required_fields /\ dict_get truncated_payload k = None /\
             Match.__init__ truncated_payload = Raise (KeyError k)) /\
  (forall m, Match.__init__ truncated_payload <> Return m).
Proof.
  refine (proj1 (init_fails_on_missing_field truncated_payload) _).
  exists "commence_time". split; [|reflexivity].
  unfold required_fields. simpl. auto.
Defined.

Example truncated_init :
  Match.__init__ truncated_payload = Raise (KeyError "commence_time").
Proof. reflexivity. Qed.

(** ** Properties of [ArbitrageCalculator] *)

Section EvaluatorProperties.
Import ArbitrageCalculator.

(** A returned result was computed from a non-zero aggregate. *)
Lemma evaluate_Some_sum_nonzero self (bo : BestOdds) r :
  evaluate self bo = Return (Some r) -> ~ implied_sum bo == 0.
Proof.
  intros H. destruct (evaluate_Some self bo r H) as (_ & _ & _ & Hflag & Harb & _).
  destruct (is_arbitrage r) eqn:E.
  - now apply Harb.
  - symmetry in Hflag. apply Qlt_bool_false in Hflag. intros Hz.
    rewrite Hz in Hflag. now apply Hflag.
Qed.

(** In exact arithmetic even odds add up to 1 and give no arbitrage; an
    implied probability of 0.999999 gives arbitrage. *)
Example even_odds_no_arbitrage :
  implied_sum even_odds == 1 /\
  evaluate calculator even_odds = Return (Some even_result) /\
  is_arbitrage even_result = false.
Proof. repeat split. Qed.

Example near_certain_odds_arbitrage :
  implied_sum near_certain_odds == 0.999999 /\
  evaluate calculator near_certain_odds = Return (Some near_certain_result) /\
  is_arbitrage near_certain_result = true.
Proof. repeat split. Qed.

(** C10. The verdict does not depend on the total stake: when [evaluate]
    returns a result for one total stake it returns one for any other, and
    the two agree on the reported implied-probability sum and on the
    arbitrage flag. *)
Theorem evaluate_stake_independent (best_odds : BestOdds) (self1 self2 : t) (r1 : Result) :
  evaluate self1 best_odds = Return (Some r1) ->
  exists r2,
    evaluate self2 best_odds = Return (Some r2) /\
    total_prob r2 = total_prob r1 /\
    is_arbitrage r2 = is_arbitrage r1.
Proof.
  intros H1. pose proof (evaluate_Some_sum_nonzero _ _ _ H1) as Hsum.
  destruct (evaluate_Some _ _ _ H1) as (Hne & Hnz & Ht1 & Hf1 & _).
  destruct (evaluate_returns self2 best_odds Hne Hnz Hsum) as [r2 H2].
  exists r2. split; [assumption|].
  destruct (evaluate_Some _ _ _ H2) as (_ & _ & Ht2 & Hf2 & _).
  split; congruence.
Qed.

Lemma evaluate_stake_independent_witness :
  exists r2,
    evaluate short_calculator sample_best_odds = Return (Some r2) /\
    total_prob r2 = total_prob sample_result /\
    is_arbitrage r2 = is_arbitrage sample_result.
Proof.
  exact (evaluate_stake_independent sample_best_odds calculator short_calculator
           sample_result eq_refl).
Defined.

(** C7. No data: [evaluate] returns no result exactly on the empty mapping,
    and the mapping of a snapshot none of whose bookmakers has a market (in
    particular of one without bookmakers) is empty, so such an event yields
    no result, neither an exception nor a result. *)
Theorem evaluate_none :
  (forall self best_odds, evaluate self best_odds = Return None <-> best_odds = []) /\
  (forall self m bs,
     Match.bookmakers m = Quotes bs ->
     (forall bk, In bk bs -> markets bk = []) ->
     Match.get_best_odds m = Return [] /\
     (best_odds <- Match.get_best_odds m ;; evaluate self best_odds) = Return None).
Proof.
  split.
  - intros self bo. split; [|now intros ->].
    destruct bo as [|e bo]; [reflexivity|]. intros H. exfalso.
    unfold evaluate in H.
    destruct (comprehension _ (values (e :: bo))); simpl in H; [|discriminate].
    destruct (Qlt_bool _ 1); simpl in H; [|discriminate].
    destruct (strokes _ _ _); simpl in H; [|discriminate].
    destruct (py_min _); simpl in H; discriminate.
  - intros self m bs Hm Hbs.
    assert (E : Match.get_best_odds m = Return []).
    { rewrite (get_best_odds_Quotes m bs Hm). f_equal. clear Hm.
      induction bs as [|bk bs IH]; [reflexivity|]. simpl.
      unfold Match.visit_bookmaker at 2. rewrite (Hbs bk) by now left.
      apply IH. intros; apply Hbs; now right. }
    split; [assumption|]. now rewrite E.
Qed.

Lemma evaluate_none_witness :
  Match.get_best_odds idle_match = Return [] /\
  (best_odds <- Match.get_best_odds idle_match ;; evaluate calculator best_odds)
  = Return None.
Proof.
  refine (proj2 evaluate_none calculator idle_match _ eq_refl _).
  intros bk [<- | [<- | []]]; reflexivity.
Defined.

Lemma round_half_even_nonneg y : 0 <= y -> (0 <= round_half_even y)%Z.
Proof.
  intros Hy. unfold round_half_even.
  assert (Hf : (0 <= Qfloor y)%Z) by (change 0%Z with (Qfloor 0); now apply Qfloor_resp_le).
  destruct (Qcompare _ _); [destruct (Z.even _)| |]; lia.
Qed.

Lemma py_round_nonneg x ndigits : 0 <= x -> 0 <= py_round x ndigits.
Proof.
  intros Hx. unfold py_round.
  assert (Hs : 0 < inject_Z (10 ^ Z.of_nat ndigits)).
  { change 0 with (inject_Z 0). rewrite <- Zlt_Qlt. apply Z.pow_pos_nonneg; lia. }
  apply Qle_shift_div_l; [assumption|]. rewrite Qmult_0_l.
  change 0 with (inject_Z 0). rewrite <- Zle_Qle.
  apply round_half_even_nonneg. now apply Qmult_le_0_compat; [|apply Qlt_le_weak].
Qed.

Lemma bets_stakes (g : Q * string -> Q) (bo : BestOdds) :
  map stake (bets (map g (values bo)) bo) = map (fun v => py_round (g v) 2) (values bo).
Proof.
  unfold bets, keys, values.
  induction bo as [|[k [p b]] bo IH]; simpl; [reflexivity|]. now rewrite IH.
Qed.

Lemma in_returns (g : Q * string -> Q) (bo : BestOdds) x :
  In x (returns (map g (values bo)) bo) ->
  exists v, In v (values bo) /\ x = g v * fst v.
Proof.
  unfold returns, values.
  induction bo as [|[k [p b]] bo IH]; simpl; [intros []|].
  intros [<- | Hin].
  - exists (p, b). split; [now left | reflexivity].
  - destruct (IH Hin) as (v & Hv & ->). exists v. split; [now right | reflexivity].
Qed.

Lemma proportional_stakes_sum self (bo : BestOdds) :
  ~ implied_sum bo == 0 ->
  py_sum (proportional_stakes self bo) == total_stake self.
Proof.
  intros Hsum. unfold proportional_stakes.
  etransitivity.
  { apply (py_sum_scaled _
             (fun v => implied_probability (fst v) / implied_sum bo)
             (total_stake self) (values bo)). }
  etransitivity.
  { apply Qmult_comp; [|reflexivity].
    apply (py_sum_scaled _ (fun v => implied_probability (fst v))
             (/ implied_sum bo) (values bo)). }
  change (py_sum (map (fun v => implied_probability (fst v)) (values bo)))
    with (implied_sum bo).
  now field.
Qed.

(** C3. Stake allocation: under arbitrage the unrounded stake of each
    outcome is its implied probability divided by the aggregate implied
    probability, times the total stake; the unrounded stakes sum to the
    total stake, and the reported stakes are their roundings to 2 places. *)
Theorem stakes_proportional_and_conserved (self : t) (best_odds : BestOdds) (r : Result) :
  evaluate self best_odds = Return (Some r) ->
  is_arbitrage r = true ->
  exists stakes,
    strokes self (implied_sum best_odds) best_odds = Return stakes /\
    stakes = map (fun v => implied_probability (fst v) / implied_sum best_odds
                           * total_stake self)
                 (values best_odds) /\
    py_sum stakes == total_stake self /\
    map stake (opportunities r) = map (fun s => py_round s 2) stakes.
Proof.
  intros H Harb.
  destruct (evaluate_Some self best_odds r H) as (_ & _ & _ & _ & Hyes & _).
  destruct (Hyes Harb) as (Hsum & Hs & Hopp & _).
  exists (proportional_stakes self best_odds). repeat split; auto.
  - now apply proportional_stakes_sum.
  - rewrite Hopp. unfold proportional_stakes. rewrite bets_stakes. now rewrite map_map.
Qed.

Lemma stakes_proportional_and_conserved_witness :
  exists stakes,
    strokes calculator (implied_sum sample_best_odds) sample_best_odds = Return stakes /\
    stakes = map (fun v => implied_probability (fst v) / implied_sum sample_best_odds
                           * total_stake calculator)
                 (values sample_best_odds) /\
    py_sum stakes == total_stake calculator /\
    map stake (opportunities sample_result) = map (fun s => py_round s 2) stakes.
Proof.
  exact (stakes_proportional_and_conserved calculator sample_best_odds sample_result
           eq_refl eq_refl).
Defined.

Lemma proportional_return_bound (p s total : Q) :
  0 < p -> 0 < s -> s < 1 -> 0 <= total ->
  total <= implied_probability p / s * total * p.
Proof.
  intros Hp Hs Hs1 Ht. unfold implied_probability.
  assert (E : 1 / p / s * total * p == total / s) by (field; split; lra).
  rewrite E. apply Qle_shift_div_l; [assumption|]. nra.
Qed.

(** C5. Profit under arbitrage, in exact arithmetic: when all prices are
    strictly positive and the total stake is not negative, as the positive
    total stake of the specification is, [evaluate] returns a result on
    every non-empty mapping, and a result that carries the arbitrage flag
    reports a guaranteed profit of at least 0. *)
Theorem profit_nonnegative (self : t) (best_odds : BestOdds) :
  (forall v, In v (values best_odds) -> 0 < fst v) ->
  0 <= total_stake self ->
  (best_odds <> [] -> exists r, evaluate self best_odds = Return (Some r)) /\
  forall r,
    evaluate self best_odds = Return (Some r) ->
    is_arbitrage r = true ->
    0 <= guaranteed_profit r.
Proof.
  intros Hpos Hstake. split.
  - intros Hne. now apply evaluate_returns_pos.
  - intros r H Harb.
    destruct (evaluate_Some self best_odds r H) as (Hne & _ & _ & Hflag & Hyes & _).
    destruct (Hyes Harb) as (_ & _ & _ & m & Hm & ->).
    apply py_round_nonneg.
    apply py_min_spec in Hm. destruct Hm as [Hin _].
    apply in_returns in Hin. destruct Hin as (v & Hv & ->).
    rewrite Harb in Hflag. symmetry in Hflag. apply Qlt_bool_true in Hflag.
    pose proof (implied_sum_pos best_odds Hne Hpos) as Hsum.
    pose proof (proportional_return_bound (fst v) (implied_sum best_odds)
                  (total_stake self) (Hpos v Hv) Hsum Hflag Hstake).
    lra.
Qed.

Lemma profit_nonnegative_witness :
  (exists r, evaluate calculator sample_best_odds = Return (Some r)) /\
  is_arbitrage sample_result = true /\
  0 <= guaranteed_profit sample_result.
Proof.
  assert (Hpos : forall v, In v (values sample_best_odds) -> 0 < fst v)
    by (intros v [<- | [<- | [<- | []]]]; reflexivity).
  assert (Hstake : 0 <= total_stake calculator) by discriminate.
  destruct (profit_nonnegative calculator sample_best_odds Hpos Hstake) as [Hex Hall].
  split; [apply Hex; discriminate|]. split; [reflexivity|].
  exact (Hall sample_result eq_refl eq_refl).
Defined.

(** The bound on the total stake is needed: a calculator built with the
    total stake -100, which the specification does not admit, finds
    arbitrage at the single positive price 2 and reports the profit -100. *)
Example profit_negative_total_stake :
  (forall v, In v (values single_odds) -> 0 < fst v) /\
  evaluate short_calculator single_odds = Return (Some short_result) /\
  is_arbitrage short_result = true /\
  guaranteed_profit short_result == -100 /\
  ~ 0 <= guaranteed_profit short_result.
Proof.
  repeat split.
  - intros v [<- | []]. reflexivity.
  - intros H. now apply H.
Qed.

End EvaluatorProperties.

(** ** Further properties of the selector *)

Section DictKeys.
Variable V : Type.
Implicit Types (d : dict V) (k : string) (v : V).

Lemma dict_get_None_keys d k : dict_get d k = None <-> ~ In k (keys d).
Proof.
  induction d as [|[k' v'] d IH]; simpl.
  - split; [intros _ [] | reflexivity].
  - destruct (String.eqb_spec k' k) as [->|Hne].
    + split; [discriminate | intros H; elim H; now left].
    + rewrite IH. split; [intros H [E|Hin]; [congruence | auto] | intros H Hin; apply H; now right].
Qed.

Lemma existsb_keys d k :
  existsb (String.eqb k) (keys d) = true <-> dict_get d k <> None.
Proof.
  rewrite existsb_exists. split.
  - intros (k' & Hin & E). apply String.eqb_eq in E. subst k'.
    intros Hnone. now apply dict_get_None_keys in Hnone.
  - intros H. exists k. split; [|apply String.eqb_refl].
    destruct (in_dec string_dec k (keys d)) as [Hin|Hout]; [assumption|].
    elim H. now apply dict_get_None_keys.
Qed.

Lemma keys_dict_set_present d k v :
  dict_get d k <> None -> keys (dict_set d k v) = keys d.
Proof.
  induction d as [|[k' v'] d IH]; simpl; [congruence|].
  destruct (String.eqb_spec k' k) as [->|Hne]; simpl; [reflexivity|].
  intros H. now rewrite IH.
Qed.

Lemma keys_dict_set_absent d k v :
  dict_get d k = None -> keys (dict_set d k v) = keys d ++ [k].
Proof.
  induction d as [|[k' v'] d IH]; simpl; [reflexivity|].
  destruct (String.eqb_spec k' k) as [->|Hne]; simpl; [discriminate|].
  intros H. now rewrite IH.
Qed.
End DictKeys.

Arguments dict_get_None_keys {V} d k.
Arguments existsb_keys {V} d k.
Arguments keys_dict_set_present {V} d k v _.
Arguments keys_dict_set_absent {V} d k v _.

(** One step of [first_seen]. *)
Lemma keys_visit_quote (d : BestOdds) q :
  keys (visit_quote d q)
  = if existsb (String.eqb (name (snd q))) (keys d) then keys d
    else keys d ++ [name (snd q)].
Proof.
  unfold visit_quote, Match.visit_outcome.
  destruct (dict_get d (name (snd q))) as [best|] eqn:E.
  - rewrite (proj2 (existsb_keys d (name (snd q)))) by congruence.
    destruct (Qgt_bool _ _); [|reflexivity].
    apply keys_dict_set_present. congruence.
  - destruct (existsb _ (keys d)) eqn:Ex.
    + apply existsb_keys in Ex. contradiction.
    + now apply keys_dict_set_absent.
Qed.

Lemma keys_fold_visit_quote qs : forall d : BestOdds,
  keys (fold_left visit_quote qs d)
  = fold_left (fun seen n => if existsb (String.eqb n) seen then seen else seen ++ [n])
              (map (fun q => name (snd q)) qs) (keys d).
Proof.
  induction qs as [|q qs IH]; intros d; simpl; [reflexivity|].
  now rewrite IH, keys_visit_quote.
Qed.

Lemma fold_seen_spec names : forall seen,
  NoDup seen ->
  let out := fold_left (fun seen n => if existsb (String.eqb n) seen then seen else seen ++ [n])
                       names seen in
  NoDup out /\ forall n, In n out <-> In n seen \/ In n names.
Proof.
  induction names as [|x names IH]; intros seen Hnd; simpl.
  - split; [assumption | intros n; tauto].
  - destruct (existsb (String.eqb x) seen) eqn:E.
    + destruct (IH seen Hnd) as [H1 H2]. split; [assumption|].
      intros n. rewrite H2. apply existsb_exists in E. destruct E as (x' & Hin & Ex).
      apply String.eqb_eq in Ex. subst x'. split; [tauto|].
      intros [H | [<- | H]]; auto.
    + assert (Hout : ~ In x seen).
      { intros Hin. apply not_true_iff_false in E. apply E. apply existsb_exists.
        exists x. split; [assumption | apply String.eqb_refl]. }
      assert (Hnd' : NoDup (seen ++ [x])).
      { apply NoDup_app; [assumption | repeat constructor; intros [] |].
        intros a Ha [<- | []]. contradiction. }
      destruct (IH (seen ++ [x]) Hnd') as [H1 H2]. split; [assumption|].
      intros n. rewrite H2, in_app_iff. simpl. tauto.
Qed.

Lemma in_quote_names bs n :
  In n (map (fun q => name (snd q)) (quotes bs)) <->
  exists bk o, In bk bs /\ offers bk o /\ name o = n.
Proof.
  rewrite in_map_iff. split.
  - intros ([b o] & Hn & Hin). apply in_quotes in Hin.
    destruct Hin as (bk & Hbk & Ho & _). now exists bk, o.
  - intros (bk & o & Hbk & Ho & Hn). exists (title bk, o). split; [assumption|].
    apply in_quotes. now exists bk.
Qed.

Lemma best_odds_keys_spec bs :
  NoDup (keys (fold_left Match.visit_bookmaker bs [])) /\
  forall n, In n (keys (fold_left Match.visit_bookmaker bs [])) <->
            exists bk o, In bk bs /\ offers bk o /\ name o = n.
Proof.
  rewrite fold_visit_bookmaker_quotes, keys_fold_visit_quote.
  destruct (fold_seen_spec (map (fun q => name (snd q)) (quotes bs)) [] (NoDup_nil _))
    as [Hnd Hin].
  split; [exact Hnd|]. intros n. rewrite <- in_quote_names.
  etransitivity; [apply Hin|]. simpl. tauto.
Qed.

(** X1. The keys of the mapping [get_best_odds] returns are exactly the
    outcome names quoted in some bookmaker's first market, each once. *)
Theorem get_best_odds_keys (m : Match.t) (bs : list Bookmaker) :
  Match.bookmakers m = Quotes bs ->
  exists best_odds,
    Match.get_best_odds m = Return best_odds /\
    NoDup (keys best_odds) /\
    forall n, In n (keys best_odds) <->
              exists bk o, In bk bs /\ offers bk o /\ name o = n.
Proof.
  intros Hm. eexists. split; [exact (get_best_odds_Quotes m bs Hm)|].
  apply best_odds_keys_spec.
Qed.

Lemma get_best_odds_keys_witness :
  exists best_odds,
    Match.get_best_odds sample_match = Return best_odds /\
    NoDup (keys best_odds) /\
    forall n, In n (keys best_odds) <->
              exists bk o, In bk sample_bookmakers /\ offers bk o /\ name o = n.
Proof. exact (get_best_odds_keys sample_match sample_bookmakers eq_refl). Defined.

(** X2. The mapping lists the outcomes in the order in which the snapshot
    first quotes them: a better price found later replaces the record in
    place. *)
Theorem get_best_odds_key_order (m : Match.t) (bs : list Bookmaker) :
  Match.bookmakers m = Quotes bs ->
  exists best_odds,
    Match.get_best_odds m = Return best_odds /\
    keys best_odds = first_seen (map (fun q => name (snd q)) (quotes bs)).
Proof.
  intros Hm. eexists. split; [exact (get_best_odds_Quotes m bs Hm)|].
  now rewrite fold_visit_bookmaker_quotes, keys_fold_visit_quote.
Qed.

Lemma get_best_odds_key_order_witness :
  exists best_odds,
    Match.get_best_odds sample_match = Return best_odds /\
    keys best_odds = first_seen (map (fun q => name (snd q)) (quotes sample_bookmakers)).
Proof. exact (get_best_odds_key_order sample_match sample_bookmakers eq_refl). Defined.

Lemma visit_quote_raises_price (d : BestOdds) q n p b :
  dict_get d n = Some (p, b) ->
  exists p' b', dict_get (visit_quote d q) n = Some (p', b') /\ p <= p'.
Proof.
  intros Hget. unfold visit_quote, Match.visit_outcome.
  destruct (String.eqb_spec (name (snd q)) n) as [->|Hne].
  - rewrite Hget. simpl. destruct (Qgt_bool (price (snd q)) p) eqn:E.
    + apply Qgt_bool_true in E. rewrite dict_get_set_same.
      exists (price (snd q)), (fst q). split; [reflexivity | now apply Qlt_le_weak].
    + exists p, b. split; [assumption | apply Qle_refl].
  - exists p, b. split; [|apply Qle_refl].
    destruct (dict_get d (name (snd q))) as [best|];
      [destruct (Qgt_bool _ _)|]; try assumption;
      now rewrite dict_get_set_other.
Qed.

Lemma fold_visit_quote_raises_price qs : forall (d : BestOdds) n p b,
  dict_get d n = Some (p, b) ->
  exists p' b', dict_get (fold_left visit_quote qs d) n = Some (p', b') /\ p <= p'.
Proof.
  induction qs as [|q qs IH]; intros d n p b Hget; simpl.
  - exists p, b. split; [assumption | apply Qle_refl].
  - destruct (visit_quote_raises_price d q n p b Hget) as (p1 & b1 & H1 & Hle1).
    destruct (IH _ n p1 b1 H1) as (p2 & b2 & H2 & Hle2).
    exists p2, b2. split; [assumption | now apply Qle_trans with p1].
Qed.

(** X3. Bookmakers added at the end of a snapshot never lower a best price:
    every outcome recorded for the shorter snapshot is recorded for the
    longer one at a price at least as high. *)
Theorem get_best_odds_more_bookmakers (m m' : Match.t) (bs more : list Bookmaker)
    (best_odds : BestOdds) (n : string) (p : Q) (b : string) :
  Match.bookmakers m = Quotes bs ->
  Match.bookmakers m' = Quotes (bs ++ more) ->
  Match.get_best_odds m = Return best_odds ->
  dict_get best_odds n = Some (p, b) ->
  exists best_odds' p' b',
    Match.get_best_odds m' = Return best_odds' /\
    dict_get best_odds' n = Some (p', b') /\ p <= p'.
Proof.
  intros Hm Hm' Hd Hget.
  rewrite (get_best_odds_Quotes m bs Hm) in Hd. injection Hd as <-.
  eexists. 
  destruct (fold_visit_quote_raises_price (quotes more) _ n p b Hget) as (p' & b' & H & Hle).
  exists p', b'. split; [exact (get_best_odds_Quotes m' _ Hm')|].
  rewrite fold_left_app, (fold_visit_bookmaker_quotes more). now split.
Qed.

Lemma get_best_odds_more_bookmakers_witness :
  exists best_odds' p' b',
    Match.get_best_odds sample_match = Return best_odds' /\
    dict_get best_odds' "Draw" = Some (p', b') /\ 3.4 <= p'.
Proof.
  exact (get_best_odds_more_bookmakers early_match sample_match
           (firstn 1 sample_bookmakers) (skipn 1 sample_bookmakers)
           early_best_odds "Draw" 3.4 "BookA" eq_refl eq_refl eq_refl eq_refl).
Defined.

Lemma evaluate_None_iff self (bo : BestOdds) :
  ArbitrageCalculator.evaluate self bo = Return None <-> bo = [].
Proof.
  split; [|now intros ->].
  destruct bo as [|e bo]; [reflexivity|]. intros H. exfalso.
  unfold ArbitrageCalculator.evaluate in H.
  destruct (comprehension _ (values (e :: bo))); simpl in H; [|discriminate].
  destruct (Qlt_bool _ 1); simpl in H; [|discriminate].
  destruct (ArbitrageCalculator.strokes _ _ _); simpl in H; [|discriminate].
  destruct (py_min _); simpl in H; discriminate.
Qed.

(** X4. For a snapshot whose bookmakers are [bs], selecting the best odds
    and evaluating them gives no result exactly when no bookmaker quotes
    any outcome in its first market; one quote is enough for [evaluate] to
    return a result or raise. *)
Theorem no_result_iff_no_quotes (self : ArbitrageCalculator.t) (m : Match.t)
    (bs : list Bookmaker) :
  Match.bookmakers m = Quotes bs ->
  ((best_odds <- Match.get_best_odds m ;; ArbitrageCalculator.evaluate self best_odds)
   = Return None
   <-> forall bk o, In bk bs -> ~ offers bk o).
Proof.
  intros Hm. rewrite (get_best_odds_Quotes m bs Hm). simpl.
  rewrite evaluate_None_iff.
  destruct (best_odds_keys_spec bs) as [_ Hkeys].
  split.
  - intros E bk o Hbk Ho. rewrite E in Hkeys.
    apply (proj2 (Hkeys (name o))). now exists bk, o.
  - intros Hnone. destruct (fold_left Match.visit_bookmaker bs []) as [|[k v] d]; [reflexivity|].
    exfalso. destruct (proj1 (Hkeys k)) as (bk & o & Hbk & Ho & _); [now left|].
    exact (Hnone bk o Hbk Ho).
Qed.

Lemma no_result_iff_no_quotes_witness :
  (best_odds <- Match.get_best_odds idle_match ;;
   ArbitrageCalculator.evaluate calculator best_odds) = Return None
  <-> forall bk o,
        In bk [ {| title := "BookA"; markets := [] |};
                {| title := "BookC"; markets := [] |} ] -> ~ offers bk o.
Proof. exact (no_result_iff_no_quotes calculator idle_match _ eq_refl). Defined.

(** ** Further properties of the construction of a snapshot *)

(** X5. Fail fast: the fields are read in the order [home_team],
    [away_team], [commence_time], [bookmakers], and the [KeyError] names
    the first one the payload lacks. *)
Theorem init_reports_first_missing (match_data : payload) (pre post : list string)
    (k : string) :
  required_fields = pre ++ k :: post ->
  (forall k', In k' pre -> dict_get match_data k' <> None) ->
  dict_get match_data k = None ->
  Match.__init__ match_data = Raise (KeyError k).
Proof.
  intros Hsplit Hpre Hk. unfold required_fields in Hsplit.
  unfold Match.__init__, getitem.
  destruct pre as [|a pre]; simpl in Hsplit; injection Hsplit as <- Hsplit;
    [now rewrite Hk|].
  destruct (dict_get match_data "home_team") eqn:E1; [|elim (Hpre _ (or_introl eq_refl) E1)].
  simpl.
  destruct pre as [|a pre]; simpl in Hsplit; injection Hsplit as <- Hsplit;
    [now rewrite Hk|].
  destruct (dict_get match_data "away_team") eqn:E2;
    [|elim (Hpre "away_team"); simpl; auto].
  simpl.
  destruct pre as [|a pre]; simpl in Hsplit; injection Hsplit as <- Hsplit;
    [now rewrite Hk|].
  destruct (dict_get match_data "commence_time") eqn:E3;
    [|elim (Hpre "commence_time"); simpl; auto].
  simpl.
  destruct pre as [|a pre]; simpl in Hsplit; injection Hsplit as <- Hsplit;
    [now rewrite Hk|].
  destruct pre; discriminate.
Qed.

Lemma init_reports_first_missing_witness :
  Match.__init__ truncated_payload = Raise (KeyError "commence_time").
Proof.
  refine (init_reports_first_missing truncated_payload
            ["home_team"; "away_team"] ["bookmakers"] "commence_time" eq_refl _ eq_refl).
  intros k' [<- | [<- | []]]; discriminate.
Defined.

(** X6. The construction of a snapshot succeeds exactly when the payload
    carries the four required fields; whatever else the payload holds is
    ignored. *)
Theorem init_returns_iff (match_data : payload) :
  (exists m, Match.__init__ match_data = Return m) <->
  (forall k, In k required_fields -> dict_get match_data k <> None).
Proof.
  unfold Match.__init__, getitem, required_fields. split.
  - intros [m H] k Hin.
    destruct (dict_get match_data "home_team") eqn:E1; [|discriminate].
    destruct (dict_get match_data "away_team") eqn:E2; [|discriminate].
    destruct (dict_get match_data "commence_time") eqn:E3; [|discriminate].
    destruct (dict_get match_data "bookmakers") eqn:E4; [|discriminate].
    simpl in Hin. destruct Hin as [<-|[<-|[<-|[<-|[]]]]]; congruence.
  - intros H.
    destruct (dict_get match_data "home_team") eqn:E1;
      [|elim (H "home_team"); simpl; auto].
    destruct (dict_get match_data "away_team") eqn:E2;
      [|elim (H "away_team"); simpl; auto].
    destruct (dict_get match_data "commence_time") eqn:E3;
      [|elim (H "commence_time"); simpl; auto].
    destruct (dict_get match_data "bookmakers") eqn:E4;
      [|elim (H "bookmakers"); simpl; auto 6].
    simpl. eauto.
Qed.

(** ** Further properties of the evaluator *)

Section EvaluatorMore.
Import ArbitrageCalculator.

Lemma bets_fields (g : Q * string -> Q) (bo : BestOdds) :
  map outcome (bets (map g (values bo)) bo) = keys bo /\
  map (fun opp => (price opp, bookmaker opp)) (bets (map g (values bo)) bo) = values bo.
Proof.
  unfold bets, keys, values.
  induction bo as [|[k [p b]] bo (IH1 & IH2)]; simpl; [auto|].
  now rewrite IH1, IH2.
Qed.

(** X8. The bets of a result mirror the mapping: without arbitrage there is
    no bet and the profit is 0; with arbitrage there is one bet per
    outcome, in the order of the mapping, carrying the outcome name, the
    price and the bookmaker recorded for it. *)
Theorem evaluate_bets (self : t) (best_odds : BestOdds) (r : Result) :
  evaluate self best_odds = Return (Some r) ->
  if is_arbitrage r then
    map outcome (opportunities r) = keys best_odds /\
    map (fun opp => (price opp, bookmaker opp)) (opportunities r) = values best_odds
  else opportunities r = [] /\ guaranteed_profit r = 0.
Proof.
  intros H. destruct (evaluate_Some self best_odds r H) as (_ & _ & _ & _ & Hyes & Hno).
  destruct (is_arbitrage r).
  - destruct (Hyes eq_refl) as (_ & _ & -> & _).
    unfold proportional_stakes. apply bets_fields.
  - now apply Hno.
Qed.

Lemma evaluate_bets_witness :
  if is_arbitrage sample_result then
    map outcome (opportunities sample_result) = keys sample_best_odds /\
    map (fun opp => (price opp, bookmaker opp)) (opportunities sample_result)
    = values sample_best_odds
  else opportunities sample_result = [] /\ guaranteed_profit sample_result = 0.
Proof. exact (evaluate_bets calculator sample_best_odds sample_result eq_refl). Defined.

Lemma implied_probability_antitone p p' :
  0 < p -> p <= p' -> implied_probability p' <= implied_probability p.
Proof.
  intros Hp Hle. assert (Hp' : 0 < p') by (eapply Qlt_le_trans; eauto).
  unfold implied_probability.
  apply Qle_shift_div_l; [assumption|].
  assert (E : 1 / p' * p == p / p') by (field; lra). rewrite E.
  apply Qle_shift_div_r; [assumption|]. lra.
Qed.

Lemma py_sum_le l l' : Forall2 Qle l l' -> py_sum l <= py_sum l'.
Proof.
  induction 1 as [|x y l l' Hxy _ IH].
  - apply Qle_refl.
  - rewrite !py_sum_cons. lra.
Qed.

Lemma implied_sum_antitone (bo bo' : BestOdds) :
  Forall2 (fun v v' => 0 < fst v /\ fst v <= fst v') (values bo) (values bo') ->
  implied_sum bo' <= implied_sum bo.
Proof.
  intros H. unfold implied_sum. apply py_sum_le.
  induction H as [|v v' l l' [Hp Hle] _ IH]; simpl; constructor; auto.
  now apply implied_probability_antitone.
Qed.

(** X10. Better prices keep the verdict: when every price of a mapping with
    positive prices is replaced by one at least as high, the aggregate
    implied probability does not increase, and if [evaluate] found
    arbitrage before it finds arbitrage after. *)
Theorem better_prices_keep_arbitrage (self : t) (best_odds best_odds' : BestOdds)
    (r : Result) :
  Forall2 (fun v v' => 0 < fst v /\ fst v <= fst v') (values best_odds) (values best_odds') ->
  evaluate self best_odds = Return (Some r) ->
  is_arbitrage r = true ->
  implied_sum best_odds' <= implied_sum best_odds /\
  exists r', evaluate self best_odds' = Return (Some r') /\ is_arbitrage r' = true.
Proof.
  intros Hbetter H Harb. pose proof (implied_sum_antitone _ _ Hbetter) as Hle.
  split; [assumption|].
  destruct (evaluate_Some self best_odds r H) as (Hne & _ & _ & Hflag & _).
  rewrite Harb in Hflag. symmetry in Hflag. apply Qlt_bool_true in Hflag.
  assert (Hne' : best_odds' <> []).
  { intros ->. inversion Hbetter as [E|]. destruct best_odds; [congruence | discriminate]. }
  assert (Hpos' : forall v, In v (values best_odds') -> 0 < fst v).
  { intros v' Hin. clear - Hbetter Hin.
    induction Hbetter as [|v w l l' [Hp Hle] _ IH]; [destruct Hin|].
    destruct Hin as [<- | Hin]; [eapply Qlt_le_trans; eauto | auto]. }
  destruct (evaluate_returns_pos self best_odds' Hne' Hpos') as [r' Hr'].
  exists r'. split; [assumption|].
  destruct (evaluate_Some self best_odds' r' Hr') as (_ & _ & _ & -> & _).
  apply Qlt_bool_true. eapply Qle_lt_trans; eauto.
Qed.

Lemma better_prices_keep_arbitrage_witness :
  implied_sum better_best_odds <= implied_sum sample_best_odds /\
  exists r', evaluate calculator better_best_odds = Return (Some r') /\
             is_arbitrage r' = true.
Proof.
  refine (better_prices_keep_arbitrage calculator sample_best_odds better_best_odds
            sample_result _ eq_refl eq_refl).
  repeat constructor; simpl; discriminate.
Defined.

Lemma round_half_even_error y :
  - (1 # 2) <= inject_Z (round_half_even y) - y <= 1 # 2.
Proof.
  unfold round_half_even.
  pose proof (Qfloor_le y) as Hlo. pose proof (Qlt_floor y) as Hhi.
  rewrite inject_Z_plus in Hhi. change (inject_Z 1) with 1 in Hhi.
  destruct (Qcompare (y - inject_Z (Qfloor y)) (1 # 2)) eqn:E.
  - apply Qeq_alt in E. destruct (Z.even (Qfloor y)).
    + lra.
    + rewrite inject_Z_plus. change (inject_Z 1) with 1. lra.
  - apply Qlt_alt in E. lra.
  - apply Qgt_alt in E. rewrite inject_Z_plus. change (inject_Z 1) with 1. lra.
Qed.

Lemma py_round_error x ndigits :
  Qabs (py_round x ndigits - x) <= (1 # 2) / inject_Z (10 ^ Z.of_nat ndigits).
Proof.
  unfold py_round. set (s := inject_Z (10 ^ Z.of_nat ndigits)).
  assert (Hs : 0 < s).
  { unfold s. change 0 with (inject_Z 0). rewrite <- Zlt_Qlt. apply Z.pow_pos_nonneg; lia. }
  destruct (round_half_even_error (x * s)) as [Hlo Hhi].
  set (z := inject_Z (round_half_even (x * s))) in *.
  assert (E : z / s - x == (z - x * s) / s) by (field; lra). rewrite E.
  apply Qabs_Qle_condition. split.
  - apply Qle_shift_div_l; [assumption|].
    assert (E' : - ((1 # 2) / s) * s == - (1 # 2)) by (field; lra). now rewrite E'.
  - apply Qle_shift_div_r; [assumption|].
    assert (E' : (1 # 2) / s * s == 1 # 2) by (field; lra). now rewrite E'.
Qed.

Lemma rounded_sum_error l :
  Qabs (py_sum (map (fun s => py_round s 2) l) - py_sum l)
  <= 0.005 * inject_Z (Z.of_nat (List.length l)).
Proof.
  induction l as [|x l IH].
  - simpl. unfold py_sum. simpl. discriminate.
  - cbn [map List.length]. rewrite !py_sum_cons, Nat2Z.inj_succ, <- Z.add_1_r, inject_Z_plus.
    change (inject_Z 1) with 1.
    assert (Hx : Qabs (py_round x 2 - x) <= 0.005)
      by (eapply Qle_trans; [apply (py_round_error x 2) | discriminate]).
    apply Qabs_Qle_condition in Hx. apply Qabs_Qle_condition in IH.
    apply Qabs_Qle_condition.
    set (n := inject_Z (Z.of_nat (List.length l))) in *.
    set (a := py_round x 2) in *.
    set (sa := py_sum (map (fun s => py_round s 2) l)) in *.
    set (sb := py_sum l) in *.
    lra.
Qed.

(** X12. The reported stakes need not add up to the total stake, but they
    miss it by at most 0.005 per outcome. *)
Theorem reported_stakes_sum (self : t) (best_odds : BestOdds) (r : Result) :
  evaluate self best_odds = Return (Some r) ->
  is_arbitrage r = true ->
  Qabs (py_sum (map stake (opportunities r)) - total_stake self)
  <= 0.005 * inject_Z (Z.of_nat (List.length best_odds)).
Proof.
  intros H Harb.
  destruct (evaluate_Some self best_odds r H) as (_ & _ & _ & _ & Hyes & _).
  destruct (Hyes Harb) as (Hsum & _ & -> & _).
  pose proof (proportional_stakes_sum self best_odds Hsum) as Etotal.
  pose proof (rounded_sum_error (proportional_stakes self best_odds)) as Eround.
  assert (Elen : List.length (proportional_stakes self best_odds) = List.length best_odds)
    by (unfold proportional_stakes, values; now rewrite !length_map).
  rewrite Elen in Eround.
  assert (Emap : map stake (bets (proportional_stakes self best_odds) best_odds)
                 = map (fun s => py_round s 2) (proportional_stakes self best_odds)).
  { unfold proportional_stakes. rewrite bets_stakes. now rewrite map_map. }
  rewrite Emap. rewrite <- Etotal. exact Eround.
Qed.

Lemma reported_stakes_sum_witness :
  Qabs (py_sum (map stake (opportunities sample_result)) - total_stake calculator)
  <= 0.005 * inject_Z (Z.of_nat (List.length sample_best_odds)).
Proof.
  exact (reported_stakes_sum calculator sample_best_odds sample_result eq_refl eq_refl).
Defined.

End EvaluatorMore.

(** ** Properties of [main] and of the HTTP client *)

Lemma fetch_odds_main requests_get :
  OddsApiClient.fetch_odds requests_get (OddsApiClient.__init__ "APY_KEY")
    None None None None
  = if negb (Z.eqb (status_code (main_response requests_get)) 200)
    then Failed (ApiError (status_code (main_response requests_get))
                          (text (main_response requests_get)))
    else Done (main_response requests_get).
Proof. reflexivity. Qed.

Lemma main_fetched requests_get :
  status_code (main_response requests_get) = 200%Z ->
  main requests_get
  = header_lines (main_response requests_get)
    ++ fst (print_events calculator 1 (json (main_response requests_get)))
    ++ match snd (print_events calculator 1 (json (main_response requests_get))) with
       | Some e => [error_line (Builtin e)]
       | None => []
       end.
Proof.
  intros Hstatus. unfold main. rewrite fetch_odds_main, Hstatus. simpl negb. cbv iota.
  change (ArbitrageCalculator.__init__ (Some 100)) with calculator.
  now destruct (print_events calculator 1 (json (main_response requests_get))).
Qed.

Lemma print_events_ok c mds : forall i,
  (forall md, In md mds -> forall k, snd (print_event c k md) = None) ->
  print_events c i mds = (event_blocks c i mds, None).
Proof.
  induction mds as [|md mds IH]; intros i Hok; simpl; [reflexivity|].
  pose proof (Hok md (or_introl eq_refl) i) as Hmd.
  destruct (print_event c i md) as [printed [e|]]; [discriminate|].
  rewrite IH by (intros; apply Hok; now right). reflexivity.
Qed.

Lemma print_events_abort c good bad rest e : forall i,
  (forall md, In md good -> forall k, snd (print_event c k md) = None) ->
  snd (print_event c (i + List.length good) bad) = Some e ->
  print_events c i (good ++ bad :: rest) = (event_blocks c i (good ++ [bad]), Some e).
Proof.
  induction good as [|md good IH]; intros i Hok Hbad; simpl.
  - rewrite Nat.add_0_r in Hbad.
    destruct (print_event c i bad) as [printed [e'|]]; simpl in *; [|discriminate].
    injection Hbad as ->. now rewrite app_nil_r.
  - pose proof (Hok md (or_introl eq_refl) i) as Hmd.
    destruct (print_event c i md) as [printed [e'|]]; [discriminate|].
    rewrite (IH (S i)).
    + reflexivity.
    + intros; apply Hok; now right.
    + simpl in Hbad. now rewrite Nat.add_succ_r in Hbad.
Qed.

(** X13. When the service answers with a status other than 200,
    [fetch_odds] raises and [main] prints one line, the error with that
    status and the body of the answer: no quota line, no event. *)
Theorem main_api_error (requests_get : string -> dict string -> Response) :
  status_code (main_response requests_get) <> 200%Z ->
  OddsApiClient.fetch_odds requests_get (OddsApiClient.__init__ "APY_KEY")
    None None None None
  = Failed (ApiError (status_code (main_response requests_get))
                     (text (main_response requests_get))) /\
  main requests_get
  = [error_line (ApiError (status_code (main_response requests_get))
                          (text (main_response requests_get)))].
Proof.
  intros Hstatus. apply Z.eqb_neq in Hstatus.
  unfold main. rewrite fetch_odds_main, Hstatus. now split.
Qed.

Lemma main_api_error_witness :
  OddsApiClient.fetch_odds (answering quota_response) (OddsApiClient.__init__ "APY_KEY")
    None None None None
  = Failed (ApiError (status_code (main_response (answering quota_response)))
                     (text (main_response (answering quota_response)))) /\
  main (answering quota_response)
  = [error_line (ApiError (status_code (main_response (answering quota_response)))
                          (text (main_response (answering quota_response))))].
Proof. refine (main_api_error (answering quota_response) _). discriminate. Defined.

(** X14. The first event that raises ends the run: [main] prints the quota
    lines, the full report of every event before it, what the failing event
    printed before it raised, and the error; the events after it are not
    looked at. *)
Theorem main_stops_at_first_failure (requests_get : string -> dict string -> Response)
    (good rest : list payload) (bad : payload) (e : exception) :
  status_code (main_response requests_get) = 200%Z ->
  json (main_response requests_get) = good ++ bad :: rest ->
  (forall md, In md good -> forall k, snd (print_event calculator k md) = None) ->
  snd (print_event calculator (1 + List.length good) bad) = Some e ->
  main requests_get
  = header_lines (main_response requests_get)
    ++ event_blocks calculator 1 (good ++ [bad])
    ++ [error_line (Builtin e)].
Proof.
  intros Hstatus Hjson Hgood Hbad.
  rewrite (main_fetched requests_get Hstatus), Hjson.
  now rewrite (print_events_abort calculator good bad rest e 1 Hgood Hbad).
Qed.

Lemma main_stops_at_first_failure_witness :
  main (answering sample_response)
  = header_lines (main_response (answering sample_response))
    ++ event_blocks calculator 1 ([sample_payload] ++ [truncated_payload])
    ++ [error_line (Builtin (KeyError "commence_time"))].
Proof.
  refine (main_stops_at_first_failure (answering sample_response)
            [sample_payload] [sample_payload] truncated_payload
            (KeyError "commence_time") eq_refl eq_refl _ eq_refl).
  intros md [<- | []] k. reflexivity.
Defined.

(** X15. When no event raises, [main] prints the quota lines and then the
    report of every event, in the order of the payload and numbered from 1,
    and no error line. *)
Theorem main_reports_every_event (requests_get : string -> dict string -> Response) :
  status_code (main_response requests_get) = 200%Z ->
  (forall md, In md (json (main_response requests_get)) ->
              forall k, snd (print_event calculator k md) = None) ->
  main requests_get
  = header_lines (main_response requests_get)
    ++ event_blocks calculator 1 (json (main_response requests_get)).
Proof.
  intros Hstatus Hok.
  rewrite (main_fetched requests_get Hstatus).
  rewrite (print_events_ok calculator _ 1 Hok). simpl. now rewrite app_nil_r.
Qed.

(** X16. An event whose bookmakers have no market is reported by its title,
    its start time and the separator alone: no probability sum is printed
    for it, and it does not stop the run. *)
Theorem print_event_no_data (c : ArbitrageCalculator.t) (i : nat) (match_data : payload)
    (m : Match.t) (bs : list Bookmaker) :
  Match.__init__ match_data = Return m ->
  Match.bookmakers m = Quotes bs ->
  (forall bk, In bk bs -> markets bk = []) ->
  print_event c i match_data
  = ([ [NL; Int i; Lit ". "] ++ Match_str m;
       [Lit "   Start time: "; Val (Match.commence_time m)];
       separator ], None).
Proof.
  intros Hinit Hm Hbs. unfold print_event. rewrite Hinit.
  rewrite (get_best_odds_Quotes m bs Hm).
  assert (E : fold_left Match.visit_bookmaker bs [] = []).
  { clear Hm. induction bs as [|bk bs IH]; [reflexivity|]. simpl.
    unfold Match.visit_bookmaker at 2. rewrite (Hbs bk) by now left.
    apply IH. intros; apply Hbs; now right. }
  rewrite E. reflexivity.
Qed.

Lemma main_reports_every_event_witness :
  main (answering calm_response)
  = header_lines (main_response (answering calm_response))
    ++ event_blocks calculator 1 (json (main_response (answering calm_response))).
Proof.
  refine (main_reports_every_event (answering calm_response) eq_refl _).
  intros md [<- | [<- | []]] k; reflexivity.
Defined.

Lemma print_event_no_data_witness :
  print_event calculator 7 idle_payload
  = ([ [NL; Int 7; Lit ". "] ++ Match_str idle_snapshot;
       [Lit "   Start time: "; Val (Match.commence_time idle_snapshot)];
       separator ], None).
Proof.
  refine (print_event_no_data calculator 7 idle_payload idle_snapshot
            [ {| title := "BookA"; markets := [] |} ] eq_refl eq_refl _).
  intros bk [<- | []]. reflexivity.
Defined.

(** In [calm_response] the quota header for the remaining requests is
    missing, and [main] prints N/A for it. *)
Example calm_response_header :
  header_lines calm_response
  = [ [Lit "API credits used: "; Str "3"];
      [Lit "API credits remaining: "; Str "N/A"; NL];
      [Lit "Premier League Odds:"; NL] ].
Proof. reflexivity. Qed.

(** ** The best price and the order of the bookmakers *)

Lemma best_price_bounded bs bs' n p b p' b' :
  (forall bk, In bk bs -> In bk bs') ->
  dict_get (fold_left Match.visit_bookmaker bs []) n = Some (p, b) ->
  dict_get (fold_left Match.visit_bookmaker bs' []) n = Some (p', b') ->
  p <= p'.
Proof.
  intros Hsub Hd Hd'.
  pose proof (best_odds_best_of bs n) as Hinv. rewrite Hd in Hinv.
  pose proof (best_odds_best_of bs' n) as Hinv'. rewrite Hd' in Hinv'.
  destruct Hinv as (pre & o & post & Hqs & Hn & <- & _).
  assert (Hin : In (b, o) (quotes bs)) by (rewrite Hqs; apply in_elt).
  apply in_quotes in Hin. destruct Hin as (bk & Hbk & Ho & Ht).
  apply (selected_bound _ _ _ _ Hinv' (title bk, o)); [|exact Hn].
  apply in_quotes. exists bk. auto.
Qed.

(** X17. The best price of an outcome does not depend on the order of the
    bookmakers: two snapshots with the same bookmakers, in any order,
    record the same outcomes at equal prices (the bookmaker named for a
    tied price may differ). *)
Theorem best_price_order_independent (m m' : Match.t) (bs bs' : list Bookmaker)
    (best_odds : BestOdds) (n : string) (p : Q) (b : string) :
  Match.bookmakers m = Quotes bs ->
  Match.bookmakers m' = Quotes bs' ->
  (forall bk, In bk bs <-> In bk bs') ->
  Match.get_best_odds m = Return best_odds ->
  dict_get best_odds n = Some (p, b) ->
  exists best_odds' p' b',
    Match.get_best_odds m' = Return best_odds' /\
    dict_get best_odds' n = Some (p', b') /\ p' == p.
Proof.
  intros Hm Hm' Hsame Hd Hget.
  rewrite (get_best_odds_Quotes m bs Hm) in Hd. injection Hd as <-.
  exists (fold_left Match.visit_bookmaker bs' []).
  destruct (dict_get (fold_left Match.visit_bookmaker bs' []) n) as [[p' b']|] eqn:E'.
  - exists p', b'. split; [exact (get_best_odds_Quotes m' bs' Hm')|]. split; [reflexivity|].
    apply Qle_antisym.
    + apply (best_price_bounded bs' bs n p' b' p b); auto. intros bk; apply Hsame.
    + apply (best_price_bounded bs bs' n p b p' b'); auto. intros bk; apply Hsame.
  - exfalso. apply dict_get_None_keys in E'.
    apply E'. apply (proj2 (best_odds_keys_spec bs')).
    assert (Hk : In n (keys (fold_left Match.visit_bookmaker bs []))).
    { destruct (in_dec string_dec n (keys (fold_left Match.visit_bookmaker bs [])))
        as [Hin|Hout]; [assumption|].
      apply dict_get_None_keys in Hout. congruence. }
    apply (proj2 (best_odds_keys_spec bs)) in Hk.
    destruct Hk as (bk & o & Hbk & Ho & Hn). exists bk, o. split; [now apply Hsame | auto].
Qed.

Lemma best_price_order_independent_witness :
  exists best_odds' p' b',
    Match.get_best_odds reversed_match = Return best_odds' /\
    dict_get best_odds' "Home" = Some (p', b') /\ p' == 2.5.
Proof.
  refine (best_price_order_independent sample_match reversed_match
            sample_bookmakers (rev sample_bookmakers) sample_best_odds
            "Home" 2.5 "BookA" eq_refl eq_refl _ eq_refl eq_refl).
  intros bk. apply in_rev.
Defined.

(** With the bookmakers reversed the tied Home price is credited to BookB. *)
Example reversed_ties :
  Match.get_best_odds reversed_match = Return reversed_best_odds /\
  dict_get reversed_best_odds "Home" = Some (2.5, "BookB").
Proof. split; reflexivity. Qed.

(** ** Order on binary64 *)

Lemma flt_irrefl x : flt x x = false.
Proof.
  unfold flt, SFltb. destruct x as [s|s| |s m e]; simpl; try reflexivity.
  - now destruct s.
  - change (Pos.compare_cont Eq m m) with (Pos.compare m m).
    rewrite Z.compare_refl, Pos.compare_refl. now destruct s.
Qed.

Lemma finite_lt_trans (e1 e2 e3 : Z) (m1 m2 m3 : positive) :
  match Z.compare e1 e2 with Lt => Lt | Gt => Gt | Eq => Pos.compare_cont Eq m1 m2 end = Lt ->
  match Z.compare e2 e3 with Lt => Lt | Gt => Gt | Eq => Pos.compare_cont Eq m2 m3 end = Lt ->
  match Z.compare e1 e3 with Lt => Lt | Gt => Gt | Eq => Pos.compare_cont Eq m1 m3 end = Lt.
Proof.
  change (Pos.compare_cont Eq m1 m2) with (Pos.compare m1 m2).
  change (Pos.compare_cont Eq m2 m3) with (Pos.compare m2 m3).
  change (Pos.compare_cont Eq m1 m3) with (Pos.compare m1 m3).
  destruct (Z.compare_spec e1 e2), (Z.compare_spec e2 e3), (Z.compare_spec e1 e3);
    destruct (Pos.compare_spec m1 m2), (Pos.compare_spec m2 m3), (Pos.compare_spec m1 m3);
    intros; try discriminate; try reflexivity; lia.
Qed.

Lemma finite_gt_trans (e1 e2 e3 : Z) (m1 m2 m3 : positive) :
  match Z.compare e1 e2 with
  | Lt => Gt | Gt => Lt | Eq => CompOpp (Pos.compare_cont Eq m1 m2) end = Lt ->
  match Z.compare e2 e3 with
  | Lt => Gt | Gt => Lt | Eq => CompOpp (Pos.compare_cont Eq m2 m3) end = Lt ->
  match Z.compare e1 e3 with
  | Lt => Gt | Gt => Lt | Eq => CompOpp (Pos.compare_cont Eq m1 m3) end = Lt.
Proof.
  change (Pos.compare_cont Eq m1 m2) with (Pos.compare m1 m2).
  change (Pos.compare_cont Eq m2 m3) with (Pos.compare m2 m3).
  change (Pos.compare_cont Eq m1 m3) with (Pos.compare m1 m3).
  destruct (Z.compare_spec e1 e2), (Z.compare_spec e2 e3), (Z.compare_spec e1 e3);
    destruct (Pos.compare_spec m1 m2), (Pos.compare_spec m2 m3), (Pos.compare_spec m1 m3);
    simpl; intros; try discriminate; try reflexivity; lia.
Qed.

Lemma flt_trans x y z : flt x y = true -> flt y z = true -> flt x z = true.
Proof.
  unfold flt, SFltb.
  destruct x as [sx|sx| |sx mx ex], y as [sy|sy| |sy my ey], z as [sz|sz| |sz mz ez];
    simpl; try discriminate; try reflexivity;
    try (destruct sx; discriminate); try (destruct sy; discriminate);
    try (destruct sz; discriminate);
    try (destruct sx, sy; discriminate); try (destruct sy, sz; discriminate);
    try (destruct sx, sy, sz; simpl; intros; try discriminate; reflexivity).
  destruct sx, sy, sz; simpl; try discriminate; try reflexivity; intros H1 H2.
  - pose proof (finite_gt_trans ex ey ez mx my mz) as H.
    destruct (match (ex ?= ey)%Z with
              | Lt => Gt | Gt => Lt | Eq => CompOpp (Pos.compare_cont Eq mx my) end);
      try discriminate.
    destruct (match (ey ?= ez)%Z with
              | Lt => Gt | Gt => Lt | Eq => CompOpp (Pos.compare_cont Eq my mz) end);
      try discriminate.
    now rewrite H.
  - pose proof (finite_lt_trans ex ey ez mx my mz) as H.
    destruct (match (ex ?= ey)%Z with
              | Lt => Lt | Gt => Gt | Eq => Pos.compare_cont Eq mx my end);
      try discriminate.
    destruct (match (ey ?= ez)%Z with
              | Lt => Lt | Gt => Gt | Eq => Pos.compare_cont Eq my mz end);
      try discriminate.
    now rewrite H.
Qed.

Lemma fold_fmin_below l : forall x,
  let m := fold_left (fun m y => if flt y m then y else m) l x in
  m = x \/ flt m x = true.
Proof.
  induction l as [|z l IH]; intros x; simpl; [now left|].
  destruct (flt z x) eqn:E; [|apply IH].
  right. destruct (IH z) as [-> | H]; [assumption | now apply flt_trans with z].
Qed.

Lemma fold_fmin_spec l : forall x,
  let m := fold_left (fun m y => if flt y m then y else m) l x in
  In m (x :: l) /\ forall y, In y (x :: l) -> flt y m = false.
Proof.
  induction l as [|z l IH]; intros x; simpl.
  - split; [now left | intros y [<- | []]; apply flt_irrefl].
  - destruct (flt z x) eqn:E.
    + destruct (IH z) as [Hin Hle]. split; [now right|].
      intros y [<- | Hy]; [|now apply Hle].
      destruct (flt x (fold_left (fun m y => if flt y m then y else m) l z)) eqn:Ex;
        [|reflexivity].
      exfalso. pose proof (flt_irrefl x) as Hx.
      destruct (fold_fmin_below l z) as [Hm | Hm].
      * rewrite Hm in Ex. now rewrite (flt_trans _ _ _ Ex E) in Hx.
      * now rewrite (flt_trans _ _ _ (flt_trans _ _ _ Ex Hm) E) in Hx.
    + destruct (IH x) as [Hin Hle]. split.
      * destruct Hin as [Hin | Hin]; [now left | right; now right].
      * intros y [<- | [<- | Hy]].
        -- apply Hle; now left.
        -- destruct (flt z (fold_left (fun m y => if flt y m then y else m) l x)) eqn:Ez;
             [|reflexivity].
           exfalso. destruct (fold_fmin_below l x) as [Hm | Hm].
           ++ rewrite Hm in Ez. congruence.
           ++ rewrite (flt_trans _ _ _ Ez Hm) in E. discriminate.
        -- apply Hle; now right.
Qed.

Lemma fmin_spec l m :
  fmin l = Return m -> In m l /\ forall y, In y l -> flt y m = false.
Proof.
  destruct l as [|x l]; simpl; [discriminate|].
  intros [= <-]. apply fold_fmin_spec.
Qed.

(** ** The evaluator in binary64: what a run returns or raises *)

Section ComprehensionMore.
Variables A B : Type.
Variable f : A -> result B.

Lemma comprehension_exists l :
  (forall a, In a l -> exists b, f a = Return b) ->
  exists bs, comprehension f l = Return bs.
Proof.
  induction l as [|a l IH]; intros H; simpl; [eauto|].
  destruct (H a (or_introl eq_refl)) as [b ->]. simpl.
  destruct IH as [bs ->]; [intros; apply H; now right|]. simpl. eauto.
Qed.

Lemma comprehension_Return_in l bs :
  comprehension f l = Return bs ->
  List.length bs = List.length l /\ forall a, In a l -> exists b, f a = Return b.
Proof.
  intros H. apply comprehension_Return in H.
  induction H as [|a b l bs Hab _ [IHlen IHin]]; simpl.
  - split; [reflexivity | intros a []].
  - split; [now rewrite IHlen|]. intros a' [<- | Hin]; eauto.
Qed.

Lemma comprehension_first_Raise l e :
  comprehension f l = Raise e -> exists a, In a l /\ f a = Raise e.
Proof.
  induction l as [|a l IH]; simpl; [discriminate|].
  destruct (f a) as [b|e'] eqn:Ea; simpl.
  - destruct (comprehension f l) as [bs|e'']; simpl; [discriminate|].
    intros [= <-]. destruct (IH eq_refl) as (a' & Hin & Ha'). exists a'. auto.
  - intros [= <-]. exists a. auto.
Qed.
End ComprehensionMore.

Section FloatEvaluator.
Import FloatCalculator.

Lemma reciprocal_zero n : zero_price n = true -> reciprocal n = Raise ZeroDivisionError.
Proof.
  destruct n as [[|p|p]|x]; simpl; try discriminate; [reflexivity|].
  now intros ->.
Qed.

Lemma reciprocal_nonzero n : zero_price n = false -> exists p, reciprocal n = Return p.
Proof.
  destruct n as [[|p|p]|x]; simpl; try discriminate; eauto.
  intros ->. eauto.
Qed.

Lemma reciprocal_Raise n e :
  reciprocal n = Raise e -> e = ZeroDivisionError /\ zero_price n = true.
Proof.
  destruct (zero_price n) eqn:E.
  - rewrite (reciprocal_zero n E). now intros [= <-].
  - destruct (reciprocal_nonzero n E) as [p ->]. discriminate.
Qed.

Lemma to_float_cases n : (exists x, to_float n = Return x) \/ too_large n.
Proof.
  unfold too_large. destruct n as [z|x]; simpl; [|eauto].
  destruct (of_ratio z 1); eauto.
Qed.

Lemma to_float_Raise n e : to_float n = Raise e -> e = OverflowError /\ too_large n.
Proof.
  unfold too_large. destruct n as [z|x]; simpl; [|discriminate].
  destruct (of_ratio z 1); try discriminate. now intros [= <-].
Qed.

Lemma probabilities_zero_price (bo : dict (number * string)) :
  (exists v, In v (values bo) /\ zero_price (fst v) = true) ->
  probabilities bo = Raise ZeroDivisionError.
Proof.
  intros (v & Hin & Hz). apply comprehension_Raise.
  - intros [n b] _. destruct (zero_price n) eqn:E.
    + left. now apply reciprocal_zero.
    + right. now apply reciprocal_nonzero.
  - exists v. split; [assumption|]. destruct v as [n b]. now apply reciprocal_zero.
Qed.

Lemma probabilities_Return_nonzero (bo : dict (number * string)) probs :
  probabilities bo = Return probs ->
  List.length probs = List.length bo /\
  forall v, In v (values bo) -> zero_price (fst v) = false.
Proof.
  intros H. apply comprehension_Return_in in H. destruct H as [Hlen Hin]. split.
  - rewrite Hlen. unfold values. apply length_map.
  - intros [n b] Hv. destruct (Hin _ Hv) as [p Hp]. simpl.
    destruct (zero_price n) eqn:E; [|reflexivity].
    rewrite (reciprocal_zero n E) in Hp. discriminate.
Qed.

Lemma probabilities_cases (bo : dict (number * string)) :
  (exists probs, probabilities bo = Return probs) \/
  (probabilities bo = Raise ZeroDivisionError /\
   exists v, In v (values bo) /\ zero_price (fst v) = true).
Proof.
  destruct (probabilities bo) as [probs|e] eqn:E; [eauto|]. right.
  apply comprehension_first_Raise in E. destruct E as ([n b] & Hin & Hr).
  apply reciprocal_Raise in Hr. destruct Hr as [-> Hz]. split; [reflexivity|].
  now exists (n, b).
Qed.

Lemma strokes_Return_iff self total (bo : dict (number * string)) :
  bo <> [] ->
  (forall v, In v (values bo) -> zero_price (fst v) = false) ->
  ((exists stakes, strokes self total bo = Return stakes) <->
   feq total fzero = false /\ exists x, to_float (total_stake self) = Return x).
Proof.
  intros Hne Hnz. split.
  - intros [stakes H]. apply comprehension_Return_in in H. destruct H as [_ Hin].
    destruct bo as [|[k [n b]] bo]; [congruence|].
    destruct (Hin (n, b) (or_introl eq_refl)) as [s Hs].
    destruct (reciprocal_nonzero n (Hnz (n, b) (or_introl eq_refl))) as [p Hp].
    rewrite Hp in Hs. simpl in Hs. unfold ftruediv in Hs.
    destruct (feq total fzero); [discriminate|]. simpl in Hs.
    destruct (to_float (total_stake self)) as [x|e]; [eauto | discriminate].
  - intros [Hz [x Hx]]. apply comprehension_exists. intros [n b] Hv.
    destruct (reciprocal_nonzero n (Hnz _ Hv)) as [p ->]. simpl.
    unfold ftruediv. rewrite Hz. simpl. rewrite Hx. simpl. eauto.
Qed.

Lemma strokes_Raise self total (bo : dict (number * string)) e :
  (forall v, In v (values bo) -> zero_price (fst v) = false) ->
  strokes self total bo = Raise e ->
  (feq total fzero = true /\ e = ZeroDivisionError) \/
  (feq total fzero = false /\ e = OverflowError /\ too_large (total_stake self)).
Proof.
  intros Hnz H. apply comprehension_first_Raise in H. destruct H as ([n b] & Hv & H).
  destruct (reciprocal_nonzero n (Hnz _ Hv)) as [p Hp]. rewrite Hp in H. simpl in H.
  unfold ftruediv in H. destruct (feq total fzero); [left; now injection H as <-|].
  simpl in H. right. destruct (to_float (total_stake self)) as [x|e'] eqn:E;
    [discriminate|].
  simpl in H. injection H as <-. apply to_float_Raise in E. tauto.
Qed.

Lemma returns_Return_iff (stakes : list binary64) (bo : dict (number * string)) :
  List.length stakes = List.length bo ->
  ((exists rets, returns stakes bo = Return rets) <->
   forall v, In v (values bo) -> exists x, to_float (fst v) = Return x).
Proof.
  intros Hlen. split.
  - intros [rets H] v Hv. apply comprehension_Return_in in H. destruct H as [_ Hin].
    assert (Hc : exists s, In (s, v) (combine stakes (values bo))).
    { clear Hin. unfold values in *. revert stakes Hlen.
      induction bo as [|[k w] bo IH]; intros stakes Hlen; [destruct Hv|].
      destruct stakes as [|s stakes]; [discriminate|]. simpl in *.
      destruct Hv as [<- | Hv]; [exists s; now left|].
      destruct (IH Hv stakes) as [s' Hs']; [lia | exists s'; now right]. }
    destruct Hc as [s Hs]. destruct (Hin _ Hs) as [x Hx]. destruct v as [n b].
    simpl in *. destruct (to_float n); [eauto | discriminate].
  - intros Hconv. apply comprehension_exists. intros [s [n b]] Hin.
    apply in_combine_r in Hin. destruct (Hconv _ Hin) as [x Hx]. simpl in Hx.
    rewrite Hx. simpl. eauto.
Qed.

Lemma returns_length (stakes : list binary64) (bo : dict (number * string)) rets :
  List.length stakes = List.length bo ->
  returns stakes bo = Return rets -> List.length rets = List.length bo.
Proof.
  intros Hlen H. apply comprehension_Return_in in H. destruct H as [-> _].
  rewrite length_combine. unfold values. rewrite length_map. lia.
Qed.

Lemma returns_Raise (stakes : list binary64) (bo : dict (number * string)) e :
  returns stakes bo = Raise e ->
  e = OverflowError /\ exists v, In v (values bo) /\ too_large (fst v).
Proof.
  intros H. apply comprehension_first_Raise in H. destruct H as ([s [n b]] & Hin & H).
  apply in_combine_r in Hin. destruct (to_float n) as [x|e'] eqn:E; [discriminate|].
  simpl in H. injection H as <-. apply to_float_Raise in E. destruct E as [-> E].
  split; [reflexivity|]. now exists (n, b).
Qed.

Lemma strokes_length self total (bo : dict (number * string)) stakes :
  strokes self total bo = Return stakes -> List.length stakes = List.length bo.
Proof.
  intros H. apply comprehension_Return_in in H. destruct H as [-> _].
  unfold values. apply length_map.
Qed.

(** The course of [evaluate] once the implied probabilities are computed. *)
Lemma fevaluate_cases self (bo : dict (number * string)) probs :
  bo <> [] ->
  probabilities bo = Return probs ->
  if flt (fsum probs) fone then
    match strokes self (fsum probs) bo with
    | Raise e => evaluate self bo = Raise e
    | Return stakes =>
        match returns stakes bo with
        | Raise e => evaluate self bo = Raise e
        | Return rets =>
            exists m bankroll,
              fmin rets = Return m /\
              to_float (total_stake self) = Return bankroll /\
              evaluate self bo
              = Return (Some {| total_prob := fround (fsum probs) 4;
                                is_arbitrage := true;
                                opportunities := fbets stakes bo;
                                guaranteed_profit := fround (fsub m bankroll) 2 |})
        end
    end
  else
    evaluate self bo
    = Return (Some {| total_prob := fround (fsum probs) 4;
                      is_arbitrage := false;
                      opportunities := [];
                      guaranteed_profit := fzero |}).
Proof.
  intros Hne Hprobs. destruct bo as [|e bo']; [congruence|].
  unfold evaluate. remember (e :: bo') as bo eqn:Ebo.
  rewrite Hprobs. simpl.
  destruct (flt (fsum probs) fone) eqn:Hflag; [|reflexivity].
  destruct (probabilities_Return_nonzero bo probs Hprobs) as [_ Hnz].
  destruct (strokes self (fsum probs) bo) as [stakes|ex] eqn:Hs; simpl; [|reflexivity].
  pose proof (strokes_length _ _ _ _ Hs) as Hlen.
  destruct (returns stakes bo) as [rets|ex] eqn:Hr; simpl; [|reflexivity].
  pose proof (returns_length _ _ _ Hlen Hr) as Hlen'.
  destruct rets as [|x rets]; [subst bo; discriminate|].
  destruct (proj1 (strokes_Return_iff self (fsum probs) bo Hne Hnz)) as [_ [y Hy]];
    [eauto|].
  exists (fold_left (fun m y => if flt y m then y else m) rets x), y.
  repeat split; auto. simpl. now rewrite Hy.
Qed.

Lemma fevaluate_Some self (bo : dict (number * string)) r :
  evaluate self bo = Return (Some r) ->
  exists probs,
    probabilities bo = Return probs /\
    total_prob r = fround (fsum probs) 4 /\
    is_arbitrage r = flt (fsum probs) fone /\
    (is_arbitrage r = true ->
     exists stakes rets m bankroll,
       strokes self (fsum probs) bo = Return stakes /\
       returns stakes bo = Return rets /\
       fmin rets = Return m /\
       to_float (total_stake self) = Return bankroll /\
       opportunities r = fbets stakes bo /\
       guaranteed_profit r = fround (fsub m bankroll) 2) /\
    (is_arbitrage r = false -> opportunities r = [] /\ guaranteed_profit r = fzero).
Proof.
  intros H.
  assert (Hne : bo <> []) by (intros ->; discriminate).
  destruct (probabilities_cases bo) as [[probs Hprobs] | [Hraise _]].
  - exists probs. split; [assumption|].
    pose proof (fevaluate_cases self bo probs Hne Hprobs) as Hc.
    destruct (flt (fsum probs) fone).
    + destruct (strokes self (fsum probs) bo) as [stakes|ex] eqn:Hs; [|congruence].
      destruct (returns stakes bo) as [rets|ex] eqn:Hr; [|congruence].
      destruct Hc as (m & bankroll & Hm & Hb & Hc). rewrite Hc in H. injection H as <-.
      simpl. repeat split; try discriminate. intros _.
      exists stakes, rets, m, bankroll. repeat split; auto.
    + rewrite Hc in H. injection H as <-. simpl. repeat split; auto; discriminate.
  - destruct bo as [|e bo']; [congruence|]. unfold evaluate in H.
    rewrite Hraise in H. discriminate.
Qed.

Lemma fevaluate_returns_no_arbitrage self (bo : dict (number * string)) probs :
  bo <> [] ->
  probabilities bo = Return probs ->
  flt (fsum probs) fone = false ->
  exists r, evaluate self bo = Return (Some r) /\ is_arbitrage r = false.
Proof.
  intros Hne Hprobs Hflag. pose proof (fevaluate_cases self bo probs Hne Hprobs) as Hc.
  rewrite Hflag in Hc. rewrite Hc. eauto.
Qed.

Lemma fevaluate_returns_arbitrage self (bo : dict (number * string)) probs :
  bo <> [] ->
  probabilities bo = Return probs ->
  flt (fsum probs) fone = true ->
  feq (fsum probs) fzero = false ->
  (exists x, to_float (total_stake self) = Return x) ->
  (forall v, In v (values bo) -> exists x, to_float (fst v) = Return x) ->
  exists r, evaluate self bo = Return (Some r) /\ is_arbitrage r = true.
Proof.
  intros Hne Hprobs Hflag Hz HT Hprices.
  pose proof (fevaluate_cases self bo probs Hne Hprobs) as Hc. rewrite Hflag in Hc.
  destruct (probabilities_Return_nonzero bo probs Hprobs) as [_ Hnz].
  destruct (proj2 (strokes_Return_iff self (fsum probs) bo Hne Hnz)) as [stakes Hs];
    [now split|].
  rewrite Hs in Hc.
  destruct (proj2 (returns_Return_iff stakes bo (strokes_length _ _ _ _ Hs)) Hprices)
    as [rets Hr].
  rewrite Hr in Hc. destruct Hc as (m & bankroll & _ & _ & ->). eauto.
Qed.

(** C2. The arbitrage test in binary64: on a non-empty mapping whose
    implied probabilities [1 / price] are computed, every result carries the
    flag [sum < 1.0] of their unrounded sum; a result without the flag is
    returned whenever the sum is not below 1.0, and a result with the flag
    whenever it is, the sum is not zero and no [int] operand is beyond the
    range of a float.  A sum of exactly 1.0 gives no arbitrage, a sum of
    0.999999 gives arbitrage. *)
Theorem evaluate_flag_binary64 (self : t) (best_odds : dict (number * string))
    (probs : list binary64) :
  best_odds <> [] ->
  probabilities best_odds = Return probs ->
  (forall r, evaluate self best_odds = Return (Some r) ->
             is_arbitrage r = flt (fsum probs) fone) /\
  (flt (fsum probs) fone = false ->
   exists r, evaluate self best_odds = Return (Some r) /\ is_arbitrage r = false) /\
  (flt (fsum probs) fone = true ->
   feq (fsum probs) fzero = false ->
   (exists x, to_float (total_stake self) = Return x) ->
   (forall v, In v (values best_odds) -> exists x, to_float (fst v) = Return x) ->
   exists r, evaluate self best_odds = Return (Some r) /\ is_arbitrage r = true) /\
  (fsum probs = fone ->
   exists r, evaluate self best_odds = Return (Some r) /\ is_arbitrage r = false) /\
  (fsum probs = of_ratio 999999 1000000 ->
   (exists x, to_float (total_stake self) = Return x) ->
   (forall v, In v (values best_odds) -> exists x, to_float (fst v) = Return x) ->
   exists r, evaluate self best_odds = Return (Some r) /\ is_arbitrage r = true).
Proof.
  intros Hne Hprobs. repeat split.
  - intros r Hr. destruct (fevaluate_Some self best_odds r Hr) as (probs' & Hp & _ & Hf & _).
    rewrite Hprobs in Hp. injection Hp as <-. exact Hf.
  - now apply fevaluate_returns_no_arbitrage.
  - now apply fevaluate_returns_arbitrage.
  - intros E. apply (fevaluate_returns_no_arbitrage self best_odds probs Hne Hprobs).
    now rewrite E.
  - intros E. apply (fevaluate_returns_arbitrage self best_odds probs Hne Hprobs);
      now rewrite E.
Qed.

Lemma evaluate_flag_binary64_witness :
  probabilities thirds_odds = Return thirds_probabilities /\
  flt (fsum thirds_probabilities) fone = true /\
  exists r, evaluate fcalculator thirds_odds = Return (Some r) /\ is_arbitrage r = true.
Proof.
  split; [reflexivity|]. split; [reflexivity|].
  refine (proj1 (proj2 (proj2
            (evaluate_flag_binary64 fcalculator thirds_odds thirds_probabilities _ eq_refl)))
            eq_refl eq_refl _ _).
  - discriminate.
  - exists (of_ratio 100 1). reflexivity.
  - intros v [<- | [<- | [<- | []]]]; eexists; reflexivity.
Defined.

(** At prices 2, 3 and 6 the sum of the implied probabilities is
    0.9999999999999999 and the result carries the flag; at even odds it is
    exactly 1.0 and the result does not; at the price 1000000/999999 it is
    0.999999 and the result does. *)
Example binary64_boundary :
  fsum thirds_probabilities = of_ratio 9007199254740991 9007199254740992 /\
  evaluate fcalculator thirds_odds = Return (Some thirds_result) /\
  is_arbitrage thirds_result = true /\
  probabilities feven_odds = Return [of_ratio 1 2; of_ratio 1 2] /\
  fsum [of_ratio 1 2; of_ratio 1 2] = fone /\
  is_arbitrage (freturned (evaluate fcalculator feven_odds)) = false /\
  probabilities fnear_certain_odds = Return [of_ratio 999999 1000000] /\
  is_arbitrage (freturned (evaluate fcalculator fnear_certain_odds)) = true.
Proof. repeat split; vm_compute; reflexivity. Qed.

Lemma fbets_stakes (stakes : list binary64) (bo : dict (number * string)) :
  List.length stakes = List.length bo ->
  map stake (fbets stakes bo) = map (fun s => fround s 2) stakes.
Proof.
  unfold fbets, keys, values. revert stakes.
  induction bo as [|[k [n b]] bo IH]; intros [|s stakes] Hlen; try discriminate;
    simpl; [reflexivity|].
  rewrite IH by (simpl in Hlen; lia). reflexivity.
Qed.

Lemma returns_products (stakes : list binary64) (bo : dict (number * string)) rets :
  returns stakes bo = Return rets ->
  Forall2 (fun ret sv => exists p, to_float (fst (snd sv)) = Return p /\
                                   ret = fmul (fst sv) p)
          rets (combine stakes (values bo)).
Proof.
  intros H. apply comprehension_Return in H.
  induction H as [|[s [n b]] ret l rets Hret _ IH]; constructor; auto.
  simpl in *. destruct (to_float n) as [p|e]; [|discriminate].
  simpl in Hret. injection Hret as <-. eauto.
Qed.

(** C4. Guaranteed profit in binary64: under arbitrage the reported profit
    is [round(min_return - total_stake, 2)], where [min_return] is one of
    the returns [stake * price] that no other return is below, each return
    being the product of a price with the unrounded stake of [strokes]; the
    stakes reported in the bets are the roundings of those same stakes. *)
Theorem profit_from_unrounded_stakes_binary64 (self : t)
    (best_odds : dict (number * string)) (r : Result) :
  evaluate self best_odds = Return (Some r) ->
  is_arbitrage r = true ->
  exists probs stakes rets min_return bankroll,
    probabilities best_odds = Return probs /\
    strokes self (fsum probs) best_odds = Return stakes /\
    returns stakes best_odds = Return rets /\
    Forall2 (fun ret sv => exists p, to_float (fst (snd sv)) = Return p /\
                                     ret = fmul (fst sv) p)
            rets (combine stakes (values best_odds)) /\
    to_float (total_stake self) = Return bankroll /\
    In min_return rets /\
    (forall x, In x rets -> flt x min_return = false) /\
    guaranteed_profit r = fround (fsub min_return bankroll) 2 /\
    map stake (opportunities r) = map (fun s => fround s 2) stakes.
Proof.
  intros H Harb.
  destruct (fevaluate_Some self best_odds r H) as (probs & Hp & _ & _ & Hyes & _).
  destruct (Hyes Harb) as (stakes & rets & m & bankroll & Hs & Hr & Hm & Hb & Ho & Hg).
  apply fmin_spec in Hm. destruct Hm as [Hin Hle].
  exists probs, stakes, rets, m, bankroll. repeat split; auto.
  - now apply returns_products.
  - rewrite Ho. apply fbets_stakes. now apply strokes_length in Hs.
Qed.

Lemma profit_from_unrounded_stakes_binary64_witness :
  exists probs stakes rets min_return bankroll,
    probabilities uneven_odds = Return probs /\
    strokes fcalculator (fsum probs) uneven_odds = Return stakes /\
    returns stakes uneven_odds = Return rets /\
    Forall2 (fun ret sv => exists p, to_float (fst (snd sv)) = Return p /\
                                     ret = fmul (fst sv) p)
            rets (combine stakes (values uneven_odds)) /\
    to_float (total_stake fcalculator) = Return bankroll /\
    In min_return rets /\
    (forall x, In x rets -> flt x min_return = false) /\
    guaranteed_profit uneven_result = fround (fsub min_return bankroll) 2 /\
    map stake (opportunities uneven_result) = map (fun s => fround s 2) stakes.
Proof.
  exact (profit_from_unrounded_stakes_binary64 fcalculator uneven_odds uneven_result
           eq_refl eq_refl).
Defined.

(** On the sample mapping the two orders of rounding differ: the profit
    from the unrounded stakes is 9.19, the one the reported stakes would
    give is 9.18. *)
Example rounding_order_matters :
  evaluate fcalculator fsample_odds = Return (Some fsample_result) /\
  guaranteed_profit fsample_result = of_ratio 919 100 /\
  (rets <- returns (map stake (opportunities fsample_result)) fsample_odds ;;
   m <- fmin rets ;;
   Return (fround (fsub m (of_ratio 100 1)) 2)) = Return (of_ratio 918 100).
Proof. repeat split; vm_compute; reflexivity. Qed.

(** X9. In binary64 the stake split does not always equalise the returns:
    at the prices 1.25 and 8.75 with the total stake 100 [evaluate] finds
    arbitrage, the two returns [stake * price] are 109.375 and
    109.37499999999999, and the reported profit 9.37 is that of the lesser
    return, where the greater would give 9.38. *)
Theorem returns_not_equalised :
  exists probs stakes high low,
    evaluate fcalculator uneven_odds = Return (Some uneven_result) /\
    is_arbitrage uneven_result = true /\
    probabilities uneven_odds = Return probs /\
    strokes fcalculator (fsum probs) uneven_odds = Return stakes /\
    returns stakes uneven_odds = Return [high; low] /\
    high = of_ratio 109375 1000 /\
    low = of_ratio (875 * 2 ^ 43 - 1) (2 ^ 46) /\
    flt low high = true /\
    guaranteed_profit uneven_result = fround (fsub low (of_ratio 100 1)) 2 /\
    guaranteed_profit uneven_result = of_ratio 937 100 /\
    fround (fsub high (of_ratio 100 1)) 2 = of_ratio 938 100.
Proof.
  eexists _, _, _, _. repeat split; vm_compute; reflexivity.
Qed.

(** C8, for a price equal to zero. A zero price anywhere in a mapping (the
    [int] 0, 0.0 or -0.0) makes [evaluate] raise [ZeroDivisionError]: no
    result is returned. *)
Theorem zero_price_raises_binary64 (self : t) (best_odds : dict (number * string)) :
  (exists v, In v (values best_odds) /\ zero_price (fst v) = true) ->
  evaluate self best_odds = Raise ZeroDivisionError.
Proof.
  intros Hz. destruct best_odds as [|e bo].
  - destruct Hz as (v & [] & _).
  - unfold evaluate. now rewrite (probabilities_zero_price _ Hz).
Qed.

Lemma zero_price_raises_binary64_witness :
  evaluate fcalculator fzero_odds = Raise ZeroDivisionError.
Proof.
  refine (zero_price_raises_binary64 fcalculator fzero_odds _).
  exists (PyFloat (S754_zero true), "BookB"). split; [right; now left | reflexivity].
Defined.

(** C8 does not hold for a negative price: no price is checked before use,
    and on the [int] price -2 with the total stake 100 [evaluate] raises
    nothing and returns a result with the arbitrage flag set, the stake
    100.0 and the profit -300.0. *)
Lemma negative_price_accepted_binary64 :
  values fnegative_odds = [(PyInt (-2), "BookA")] /\
  (-2 <= 0)%Z /\
  evaluate fcalculator fnegative_odds = Return (Some fnegative_result) /\
  is_arbitrage fnegative_result = true /\
  map stake (opportunities fnegative_result) = [of_ratio 100 1] /\
  guaranteed_profit fnegative_result = of_ratio (-300) 1.
Proof. repeat split; try (vm_compute; reflexivity). discriminate. Qed.

Lemma strokes_too_large self total (bo : dict (number * string)) :
  bo <> [] ->
  (forall v, In v (values bo) -> zero_price (fst v) = false) ->
  feq total fzero = false ->
  too_large (total_stake self) ->
  strokes self total bo = Raise OverflowError.
Proof.
  intros Hne Hnz Hz HT. destruct bo as [|[k [n b]] bo]; [congruence|].
  unfold strokes. simpl.
  destruct (reciprocal_nonzero n (Hnz (n, b) (or_introl eq_refl))) as [p ->]. simpl.
  unfold ftruediv. rewrite Hz. simpl. unfold too_large in HT. now rewrite HT.
Qed.

Lemma strokes_zero_total self total (bo : dict (number * string)) :
  bo <> [] ->
  (forall v, In v (values bo) -> zero_price (fst v) = false) ->
  feq total fzero = true ->
  strokes self total bo = Raise ZeroDivisionError.
Proof.
  intros Hne Hnz Hz. destruct bo as [|[k [n b]] bo]; [congruence|].
  unfold strokes. simpl.
  destruct (reciprocal_nonzero n (Hnz (n, b) (or_introl eq_refl))) as [p ->]. simpl.
  unfold ftruediv. now rewrite Hz.
Qed.

Lemma fone_finite : fone = S754_finite false 4503599627370496 (-52).
Proof. vm_compute. reflexivity. Qed.

Lemma feq_zero_flt_one x : feq x fzero = true -> flt x fone = true.
Proof.
  rewrite fone_finite. unfold feq, flt, SFeqb, SFltb, fzero.
  destruct x as [s|s| |s m e]; intros H.
  - reflexivity.
  - destruct s; discriminate H.
  - discriminate H.
  - destruct s; discriminate H.
Qed.

(** X7. In binary64 [evaluate] raises nothing but [ZeroDivisionError] and
    [OverflowError], and only on a non-empty mapping: the first exactly
    when some price is zero or the implied probabilities, all computed, add
    up to zero; the second exactly when their sum is below 1.0 and not
    zero, and the total stake or some price is an [int] beyond the range
    of a float. *)
Theorem evaluate_raises_iff_binary64 (self : t) (best_odds : dict (number * string))
    (e : exception) :
  evaluate self best_odds = Raise e <->
  best_odds <> [] /\
  ((e = ZeroDivisionError /\
    exists v, In v (values best_odds) /\ zero_price (fst v) = true) \/
   (exists probs,
      probabilities best_odds = Return probs /\
      ((e = ZeroDivisionError /\ feq (fsum probs) fzero = true) \/
       (e = OverflowError /\
        flt (fsum probs) fone = true /\ feq (fsum probs) fzero = false /\
        (too_large (total_stake self) \/
         exists v, In v (values best_odds) /\ too_large (fst v)))))).
Proof.
  split.
  - intros H. assert (Hne : best_odds <> []) by (intros ->; discriminate).
    split; [assumption|].
    destruct (probabilities_cases best_odds) as [[probs Hprobs] | [Hraise Hz]].
    + right. exists probs. split; [assumption|].
      pose proof (fevaluate_cases self best_odds probs Hne Hprobs) as Hc.
      destruct (probabilities_Return_nonzero best_odds probs Hprobs) as [_ Hnz].
      destruct (flt (fsum probs) fone) eqn:Hflag; [|congruence].
      destruct (strokes self (fsum probs) best_odds) as [stakes|ex] eqn:Hs.
      * destruct (proj1 (strokes_Return_iff self (fsum probs) best_odds Hne Hnz))
          as [Hz _]; [eauto|].
        destruct (returns stakes best_odds) as [rets|ex] eqn:Hr.
        -- destruct Hc as (m & bankroll & _ & _ & Hc). congruence.
        -- rewrite Hc in H. injection H as <-.
           apply returns_Raise in Hr. destruct Hr as [-> Hv]. right. auto.
      * rewrite Hc in H. injection H as <-.
        destruct (strokes_Raise self (fsum probs) best_odds ex Hnz Hs)
          as [[Hz ->] | (Hz & -> & HT)]; [left | right]; auto.
    + left. destruct best_odds as [|x bo]; [congruence|].
      unfold evaluate in H. rewrite Hraise in H. injection H as <-. auto.
  - intros (Hne & [[-> Hz] | (probs & Hprobs & Hcase)]).
    + destruct best_odds as [|x bo]; [congruence|].
      unfold evaluate. now rewrite (probabilities_zero_price _ Hz).
    + pose proof (fevaluate_cases self best_odds probs Hne Hprobs) as Hc.
      destruct (probabilities_Return_nonzero best_odds probs Hprobs) as [_ Hnz].
      destruct Hcase as [[-> Hz] | (-> & Hflag & Hz & Hlarge)].
      * rewrite (feq_zero_flt_one _ Hz) in Hc.
        now rewrite (strokes_zero_total self _ best_odds Hne Hnz Hz) in Hc.
      * rewrite Hflag in Hc.
        destruct (to_float_cases (total_stake self)) as [HT | HT].
        -- destruct Hlarge as [HT' | (v & Hv & Hbig)].
           ++ destruct HT as [x Hx]. unfold too_large in HT'. congruence.
           ++ destruct (proj2 (strokes_Return_iff self (fsum probs) best_odds Hne Hnz))
                as [stakes Hs]; [now split|].
              rewrite Hs in Hc.
              destruct (returns stakes best_odds) as [rets|ex] eqn:Hr.
              ** exfalso.
                 destruct (proj1 (returns_Return_iff stakes best_odds
                                    (strokes_length _ _ _ _ Hs))) with (v := v)
                   as [x Hx]; eauto.
                 unfold too_large in Hbig. congruence.
              ** apply returns_Raise in Hr. destruct Hr as [-> _]. exact Hc.
        -- now rewrite (strokes_too_large self _ best_odds Hne Hnz Hz HT) in Hc.
Qed.

(** A price of 10 ** 400 has the implied probability 0.0: alone it makes the
    sum zero and the division by it raise, and beside the price 2 it makes
    [stake * price] overflow.  The prices 2 and -2 cancel and raise; the
    prices 2, 3, 6 and -1 cancel in exact arithmetic only, and [evaluate]
    returns a result for them. *)
Example huge_price_raises :
  evaluate fcalculator [("Home", (PyInt (10 ^ 400), "BookA"))] = Raise ZeroDivisionError /\
  evaluate fcalculator huge_odds = Raise OverflowError /\
  evaluate fcalculator fcancelling_odds = Raise ZeroDivisionError /\
  exists r, evaluate fcalculator offset_odds = Return (Some r) /\ is_arbitrage r = true.
Proof.
  repeat split; try (vm_compute; reflexivity).
  eexists. split; vm_compute; reflexivity.
Qed.

End FloatEvaluator.
